(** * AlphaSentinel: the synthetic series, the indicators and the scoring core

    A shallow embedding of the computational core of [src/App.jsx]
    ([seededRandom], [generateStockData], [calculateIndicators] and the
    derived signals of the [App] component), with the properties the
    specification states about it.

    Numbers.  A JavaScript number is modelled as a real number or one of the
    three special values of IEEE 754 (the two infinities and NaN).  Arithmetic
    on finite values is exact: binary64 rounding, overflow to an infinity and
    the sign of zero are outside the model (a zero divisor is treated as +0).
    What the model keeps is every place where the source can leave the finite
    numbers: division by zero, [Infinity - Infinity], the coercion of [null]
    and [undefined] in a comparison, and the [x || c] idiom on 0 and NaN.

    Dates and tickers.  The clock read by [new Date()] is an explicit argument
    of [generateStockData]: the time value of the call, in milliseconds since
    the epoch, together with the offset of the local time zone.  The day
    arithmetic of [setDate] is done in local time and the day printed by
    [toISOString] is the UTC day, as ECMAScript defines them; an ISO day string
    is kept as its day number since the epoch.  Time values are taken to stay
    in the range a [Date] can hold.  A ticker is a string of 8-bit characters,
    [charCodeAt] being the character code. *)

From Stdlib Require Import Reals Lra Lia ZArith Bool String Ascii List Permutation.
Import ListNotations.

Local Open Scope R_scope.

(* ================================================================= *)
(** ** JavaScript numbers and values *)

Inductive num : Type :=
| Finite (r : R)
| PosInf
| NegInf
| NaN.

Coercion Finite : R >-> num.

(** A field of a JavaScript object as the scoring code reads it: a number,
    [null] (an indicator whose window is not filled yet) or [undefined]
    (a field of the empty object [{}]). *)
Inductive value : Type :=
| VNum (x : num)
| VNull
| VUndefined.

(** ToNumber, as applied by the relational and arithmetic operators. *)
Definition toNumber (v : value) : num :=
  match v with
  | VNum x => x
  | VNull => Finite 0
  | VUndefined => NaN
  end.

Definition is_finite (x : num) : Prop := exists r, x = Finite r.

Definition neg (x : num) : num :=
  match x with
  | Finite a => Finite (- a)
  | PosInf => NegInf
  | NegInf => PosInf
  | NaN => NaN
  end.

Definition add (x y : num) : num :=
  match x, y with
  | NaN, _ | _, NaN => NaN
  | Finite a, Finite b => Finite (a + b)
  | PosInf, NegInf | NegInf, PosInf => NaN
  | PosInf, _ | _, PosInf => PosInf
  | NegInf, _ | _, NegInf => NegInf
  end.

Definition sub (x y : num) : num := add x (neg y).

(** The infinity with the sign of [a]; NaN for [a = 0]. *)
Definition inf_of_sign (a : R) : num :=
  if Req_dec_T a 0 then NaN
  else if Rlt_dec 0 a then PosInf else NegInf.

Definition mul (x y : num) : num :=
  match x, y with
  | NaN, _ | _, NaN => NaN
  | Finite a, Finite b => Finite (a * b)
  | Finite a, PosInf | PosInf, Finite a => inf_of_sign a
  | Finite a, NegInf | NegInf, Finite a => inf_of_sign (- a)
  | PosInf, PosInf | NegInf, NegInf => PosInf
  | PosInf, NegInf | NegInf, PosInf => NegInf
  end.

Definition div (x y : num) : num :=
  match x, y with
  | NaN, _ | _, NaN => NaN
  | Finite a, Finite b =>
      if Req_dec_T b 0 then inf_of_sign a else Finite (a / b)
  | Finite _, PosInf | Finite _, NegInf => Finite 0
  | PosInf, Finite b => if Rlt_dec b 0 then NegInf else PosInf
  | NegInf, Finite b => if Rlt_dec b 0 then PosInf else NegInf
  | PosInf, PosInf | PosInf, NegInf | NegInf, PosInf | NegInf, NegInf => NaN
  end.

(** [x < y]; false as soon as one side is NaN. *)
Definition lt (x y : num) : bool :=
  match x, y with
  | NaN, _ | _, NaN => false
  | Finite a, Finite b => if Rlt_dec a b then true else false
  | _, NegInf => false
  | PosInf, _ => false
  | NegInf, _ => true
  | Finite _, PosInf => true
  end.

Definition gt (x y : num) : bool := lt y x.

(** Truthiness of a number: 0 and NaN are falsy. *)
Definition truthy (x : num) : bool :=
  match x with
  | Finite a => if Req_dec_T a 0 then false else true
  | NaN => false
  | PosInf | NegInf => true
  end.

(** [x || c] on numbers. *)
Definition or_else (x c : num) : num := if truthy x then x else c.

Definition Math_abs (x : num) : num :=
  match x with
  | Finite a => Finite (Rabs a)
  | PosInf | NegInf => PosInf
  | NaN => NaN
  end.

Definition Math_sqrt (x : num) : num :=
  match x with
  | Finite a => if Rlt_dec a 0 then NaN else Finite (sqrt a)
  | PosInf => PosInf
  | NegInf | NaN => NaN
  end.

Definition Math_sin (x : num) : num :=
  match x with
  | Finite a => Finite (sin a)
  | PosInf | NegInf | NaN => NaN
  end.

Definition Math_floor (x : num) : num :=
  match x with
  | Finite a => Finite (IZR (Zfloor a))
  | PosInf => PosInf
  | NegInf => NegInf
  | NaN => NaN
  end.

Definition Math_max (x y : num) : num :=
  match x, y with
  | NaN, _ | _, NaN => NaN
  | Finite a, Finite b => Finite (Rmax a b)
  | PosInf, _ | _, PosInf => PosInf
  | NegInf, z | z, NegInf => z
  end.

Definition Math_min (x y : num) : num :=
  match x, y with
  | NaN, _ | _, NaN => NaN
  | Finite a, Finite b => Finite (Rmin a b)
  | NegInf, _ | _, NegInf => NegInf
  | PosInf, z | z, PosInf => z
  end.

(** [Math.pow(x, n)] for a natural exponent. *)
Definition Math_pow (x : num) (n : nat) : num :=
  match n with
  | O => Finite 1
  | S _ =>
      match x with
      | Finite a => Finite (a ^ n)
      | PosInf => PosInf
      | NegInf => if Nat.even n then PosInf else NegInf
      | NaN => NaN
      end
  end.

(** [Array.prototype.slice(start, stop)]: negative arguments count from the
    end, and both are clamped to the bounds of the array. *)
Definition slice {A : Type} (l : list A) (start stop : Z) : list A :=
  let len := Z.of_nat (length l) in
  let from := if (start <? 0)%Z then Z.max (len + start) 0 else Z.min start len in
  let to := if (stop <? 0)%Z then Z.max (len + stop) 0 else Z.min stop len in
  firstn (Z.to_nat (to - from)) (skipn (Z.to_nat from) l).

(** [slice(start)]: up to the end of the array. *)
Definition slice_from {A : Type} (l : list A) (start : Z) : list A :=
  slice l start (Z.of_nat (length l)).

(* ================================================================= *)
(** ** The synthetic series ([seededRandom], [generateStockData]) *)

(** Time values are milliseconds since the epoch, in UTC. *)
Definition msPerHour : Z := 3600000.
Definition msPerDay : Z := 86400000.

(** What [generateStockData] reads from its environment: the time value of
    [new Date()], and the offset of the local time zone in milliseconds,
    [LocalTZA t isUTC] of ECMAScript ([t] is a UTC time value when [isUTC] is
    [true], a local one otherwise). *)
Record Clock : Type := mkClock {
  timeValue : Z;
  LocalTZA : Z -> bool -> Z
}.

Definition LocalTime (clock : Clock) (t : Z) : Z :=
  (t + LocalTZA clock t true)%Z.

Definition UTC (clock : Clock) (t : Z) : Z :=
  (t - LocalTZA clock t false)%Z.

Definition Day (t : Z) : Z := (t / msPerDay)%Z.

(** [date.setDate(date.getDate() - n)] on a date of time value [tv]; the
    result is the new time value.  [setDate(dt)] takes the local time
    [t = LocalTime(tv)], makes the day [MakeDay(YearFromTime(t),
    MonthFromTime(t), dt)], which is [Day(t) - n] for [dt = getDate() - n]
    (the day of the month counted from the first of the month of [t]), keeps
    the time within the day, and converts back with [UTC]. *)
Definition setDateBack (clock : Clock) (tv n : Z) : Z :=
  UTC clock (LocalTime clock tv - n * msPerDay)%Z.

(** [date.toISOString().split('T')[0]]: the calendar day in UTC, kept as its
    day number since the epoch. *)
Definition isoDay (tv : Z) : Z := Day tv.

Record PricePoint : Type := mkPricePoint {
  date : Z;       (* the day of the ISO string, as a day number *)
  price : num;
  volume : num
}.

(** [seededRandom]: the fractional part of [sin(seed) * 10000].  The
    post-increment of the parameter is not observable. *)
Definition seededRandom (seed : num) : num :=
  let x := mul (Math_sin seed) 10000 in
  sub x (Math_floor x).

(** [ticker.split('').reduce((acc, char) => acc + char.charCodeAt(0), 0)]. *)
Definition tickerSeed (ticker : string) : num :=
  fold_left (fun acc char => add acc (Finite (INR (nat_of_ascii char))))
            (list_ascii_of_string ticker) (Finite 0).

Definition totalPoints : Z := 400.

(** The body of the [for] loop, for the iterations that remain: [i] is the
    loop counter, [price] the running price and [data] the array built so
    far.  [date] is the copy of [now] that [setDate] has moved back by
    [totalPoints - i] days. *)
Fixpoint generateLoop (clock : Clock) (seed trend : num) (remaining : nat)
         (i : Z) (price : num) (data : list PricePoint) : list PricePoint :=
  match remaining with
  | O => data
  | S remaining' =>
      let date := setDateBack clock (timeValue clock) (totalPoints - i) in
      let volatility := mul price 0.02 in
      let change :=
        add (mul (sub (seededRandom (add seed (IZR i))) 0.5) volatility) trend in
      let price := add price change in
      let price := Math_max price 5 in
      generateLoop clock seed trend remaining' (i + 1)%Z price
        (data ++ [ {| date := isoDay date;
                      price := price;
                      volume := Math_floor
                                  (mul (seededRandom (add (add seed (IZR i)) 1000))
                                       1000000) |} ])
  end.

(** [generateStockData]; what [new Date()] reads is the explicit argument
    [clock]. *)
Definition generateStockData (clock : Clock) (ticker : string) : list PricePoint :=
  let seed := tickerSeed ticker in
  let price := add 100 (mul (seededRandom seed) 50) in
  let trend := mul (sub (seededRandom (add seed 1)) 0.5) 0.2 in
  generateLoop clock seed trend (Z.to_nat totalPoints) 0%Z price [].

(* ================================================================= *)
(** ** The indicators ([calculateIndicators]) *)

Record IndicatorPoint : Type := mkIndicatorPoint {
  ip_date : Z;
  ip_price : num;
  ip_volume : num;
  sma50 : value;
  sma200 : value;
  rsi : num;
  bbUpper : value;
  bbLower : value;
  zScore : num
}.

Definition period50 : Z := 50.
Definition period200 : Z := 200.
Definition rsiPeriod : Z := 14.

(** [slice.reduce((sum, d) => sum + d.price, 0)]. *)
Definition sumPrices (sl : list PricePoint) : num :=
  fold_left (fun sum d => add sum (price d)) sl (Finite 0).

(** The inner [for (k = 1; k < slice.length; k++)] loop of the rolling RSI:
    the gains [g] and the losses [l] over the consecutive pairs of [sl]. *)
Fixpoint windowGainLoss (sl : list PricePoint) (g l : num) : num * num :=
  match sl with
  | a :: ((b :: _) as rest) =>
      let d := sub (price b) (price a) in
      if gt d 0 then windowGainLoss rest (add g d) l
      else windowGainLoss rest g (sub l d)
  | _ => (g, l)
  end.

(** [100 - (100 / (1 + (avgGain / (avgLoss || 1))))]. *)
Definition rsiFormula (avgGain avgLoss : num) : num :=
  sub 100 (div 100 (add 1 (div avgGain (or_else avgLoss 1)))).

(** [data[index].price].  The callback reads [data[index - 1]] under the
    guard [index > 0], an index inside the array; outside the array the
    source would raise a TypeError, which reads as NaN here. *)
Definition priceAt (data : list PricePoint) (index : Z) : num :=
  match nth_error data (Z.to_nat index) with
  | Some d => price d
  | None => NaN
  end.

(** The SMA block of the callback, for [period50] and [period200]:
    [null] until the window is filled. *)
Definition smaAt (data : list PricePoint) (period index : Z) : value :=
  if (period - 1 <=? index)%Z then
    VNum (div (sumPrices (slice data (index - period + 1) (index + 1)))
              (IZR period))
  else VNull.

(** The RSI block of the callback.  The state is the pair of the closed-over
    variables [gains] and [losses], which the callback updates in place
    while [index <= rsiPeriod]; the result is the new state and [rsi]. *)
Definition rsiStep (data : list PricePoint) (st : num * num)
           (day : PricePoint) (index : Z) : num * num * num :=
  let '(gains, losses) := st in
  if (0 <? index)%Z then
    let change := sub (price day) (priceAt data (index - 1)) in
    if (index <=? rsiPeriod)%Z then
      let '(gains, losses) :=
        if gt change 0 then (add gains change, losses)
        else (gains, sub losses change) in
      if (index =? rsiPeriod)%Z then
        let avgGain := div gains (IZR rsiPeriod) in
        let avgLoss := div losses (IZR rsiPeriod) in
        (gains, losses, rsiFormula avgGain avgLoss)
      else (gains, losses, Finite 50)
    else
      let sl := slice data (index - rsiPeriod + 1) (index + 1) in
      let '(g, l) := windowGainLoss sl 0 0 in
      (gains, losses,
       rsiFormula (div g (IZR rsiPeriod)) (div l (IZR rsiPeriod)))
  else (gains, losses, Finite 50).

(** The Bollinger block of the callback: [bbUpper], [bbLower], [zScore]. *)
Definition bollingerAt (data : list PricePoint) (day : PricePoint)
           (index : Z) : value * value * num :=
  if (20 <=? index)%Z then
    let sl := slice data (index - 19) (index + 1) in
    let mean := div (fold_left (fun a b => add a (price b)) sl (Finite 0)) 20 in
    let stdDev :=
      Math_sqrt
        (div (fold_left (fun a b => add a (Math_pow (sub (price b) mean) 2))
                        sl (Finite 0)) 20) in
    (VNum (add mean (mul 2 stdDev)),
     VNum (sub mean (mul 2 stdDev)),
     div (sub (price day) mean) (or_else stdDev 1))
  else (VNull, VNull, Finite 0).

(** The callback of [data.map]. *)
Definition indicatorStep (data : list PricePoint) (st : num * num)
           (day : PricePoint) (index : Z) : (num * num) * IndicatorPoint :=
  let sma50 := smaAt data period50 index in
  let sma200 := smaAt data period200 index in
  let '(gains, losses, rsi) := rsiStep data st day index in
  let '(bbUpper, bbLower, zScore) := bollingerAt data day index in
  ((gains, losses),
   {| ip_date := date day; ip_price := price day; ip_volume := volume day;
      sma50 := sma50; sma200 := sma200; rsi := rsi;
      bbUpper := bbUpper; bbLower := bbLower; zScore := zScore |}).

(** [data.map(callback)], left to right with the state threaded through. *)
Fixpoint mapIndicators (data rest : list PricePoint) (index : Z)
         (st : num * num) : list IndicatorPoint :=
  match rest with
  | [] => []
  | day :: rest' =>
      let '(st', point) := indicatorStep data st day index in
      point :: mapIndicators data rest' (index + 1)%Z st'
  end.

(** [dataWithIndicators], the array before the truncation. *)
Definition dataWithIndicators (data : list PricePoint) : list IndicatorPoint :=
  mapIndicators data data 0%Z (Finite 0, Finite 0).

(** [calculateIndicators]: the last 200 points of [dataWithIndicators]. *)
Definition calculateIndicators (data : list PricePoint) : list IndicatorPoint :=
  slice_from (dataWithIndicators data) (-200).

(* ================================================================= *)
(** ** The derived signals of the [App] component *)

(** [data[data.length - 1] || {}] and [data[data.length - 2] || {}]: [None]
    is the empty object, all of whose fields read as [undefined]. *)
Definition pointFromEnd (data : list IndicatorPoint) (k : nat)
  : option IndicatorPoint :=
  if Nat.leb k (length data) then nth_error data (length data - k) else None.

Definition field (f : IndicatorPoint -> value) (o : option IndicatorPoint)
  : value :=
  match o with
  | Some p => f p
  | None => VUndefined
  end.

Definition price_field (p : IndicatorPoint) : value := VNum (ip_price p).

(** [current.price > current.sma200 ? 1 : -1]. *)
Definition trendScore (current : option IndicatorPoint) : num :=
  if gt (toNumber (field price_field current))
        (toNumber (field sma200 current))
  then Finite 1 else Finite (-1).

Inductive Verdict : Type := BUY | SELL | NEUTRAL.

(** [totalScore > 0.2 ? "BUY" : totalScore < -0.2 ? "SELL" : "NEUTRAL"]. *)
Definition verdict (totalScore : num) : Verdict :=
  if gt totalScore 0.2 then BUY
  else if lt totalScore (-0.2) then SELL
  else NEUTRAL.

(** [(current.price - prev.price) / prev.price], the daily return. *)
Definition volatility (current prev : option IndicatorPoint) : num :=
  div (sub (toNumber (field price_field current))
           (toNumber (field price_field prev)))
      (toNumber (field price_field prev)).

Definition annualizedVol (current prev : option IndicatorPoint) : num :=
  Math_abs (mul (volatility current prev) (Math_sqrt 252)).

Definition targetVol : num := 0.15.

(** [(targetVol / (annualizedVol || 0.01)) * Math.abs(totalScore)]. *)
Definition rawSize (current prev : option IndicatorPoint) (totalScore : num)
  : num :=
  mul (div targetVol (or_else (annualizedVol current prev) 0.01))
      (Math_abs totalScore).

(** [Math.min(positionSize, 2.5) * 10]. *)
Definition positionSize (current prev : option IndicatorPoint)
           (totalScore : num) : num :=
  mul (Math_min (rawSize current prev totalScore) 2.5) 10.

(* ================================================================= *)
(** ** The other signals of the [App] component *)

Definition zScore_field (p : IndicatorPoint) : value := VNum (zScore p).

(** Model B, mean reversion: [let revScore = 0; if (current.zScore < -2)
    revScore = 1; else if (current.zScore > 2) revScore = -1]. *)
Definition revScore (current : option IndicatorPoint) : num :=
  if lt (toNumber (field zScore_field current)) (-2) then Finite 1
  else if gt (toNumber (field zScore_field current)) 2 then Finite (-1)
  else Finite 0.

(** The risk level shown beside the verdict:
    [current.zScore < -2 || current.zScore > 2 ? "High (Reversal)" :
    "Moderate (Trend)"]. *)
Definition riskLevel (current : option IndicatorPoint) : string :=
  if lt (toNumber (field zScore_field current)) (-2)
     || gt (toNumber (field zScore_field current)) 2
  then "High (Reversal)"%string else "Moderate (Trend)"%string.

(** The latest analyst recommendation of the real-time feed; a count the
    object does not have reads as [undefined]. *)
Record Recommendations : Type := mkRecommendations {
  strongBuy : value;
  buy : value;
  hold : value;
  sell : value;
  strongSell : value
}.

(** A default of a destructuring pattern, [{ x = d } = obj]: it replaces
    [undefined] only. *)
Definition orDefault (v : value) (d : num) : value :=
  match v with
  | VUndefined => VNum d
  | _ => v
  end.

(** Model C, sentiment: the analyst consensus when there is one with at
    least one analyst, the price against [sma50] otherwise. *)
Definition sentimentScore (recommendations : option Recommendations)
           (current : option IndicatorPoint) : num :=
  match recommendations with
  | Some r =>
      let '(strongBuy, buy, hold, sell, strongSell) :=
        (toNumber (orDefault (strongBuy r) 0), toNumber (orDefault (buy r) 0),
         toNumber (orDefault (hold r) 0), toNumber (orDefault (sell r) 0),
         toNumber (orDefault (strongSell r) 0)) in
      let totalAnalysts :=
        add (add (add (add strongBuy buy) hold) sell) strongSell in
      if gt totalAnalysts 0 then
        let rawScore :=
          div (add (add (add (add (mul strongBuy 2) (mul buy 1)) (mul hold 0))
                        (mul sell (-1)))
                   (mul strongSell (-2)))
              totalAnalysts in
        let normalized := Math_max (-1) (Math_min 1 rawScore) in
        if gt normalized 0.3 then Finite 1
        else if lt normalized (-0.3) then Finite (-1)
        else Finite 0
      else
        if gt (toNumber (field price_field current))
              (toNumber (field sma50 current))
        then Finite 1 else Finite (-1)
  | None =>
      if gt (toNumber (field price_field current))
            (toNumber (field sma50 current))
      then Finite 1 else Finite (-1)
  end.

(** The weights of the three models, set by the sliders. *)
Record Weights : Type := mkWeights {
  w_trend : num;
  w_meanRev : num;
  w_sentiment : num
}.

(** [(trendScore * weights.trend) + (revScore * weights.meanRev) +
    (sentimentScore * weights.sentiment)]. *)
Definition totalScore (current : option IndicatorPoint)
           (recommendations : option Recommendations) (weights : Weights)
  : num :=
  add (add (mul (trendScore current) (w_trend weights))
           (mul (revScore current) (w_meanRev weights)))
      (mul (sentimentScore recommendations current) (w_sentiment weights)).

(** The initial weights, [{ trend: 0.4, meanRev: 0.4, sentiment: 0.2 }]. *)
Definition defaultWeights : Weights :=
  {| w_trend := 0.4; w_meanRev := 0.4; w_sentiment := 0.2 |}.

Definition getScoreColor (s : num) : string :=
  if gt s 0.2 then "text-green-400"%string
  else if lt s (-0.2) then "text-red-400"%string
  else "text-yellow-400"%string.

Definition getScoreBg (s : num) : string :=
  if gt s 0.2 then "bg-green-500/20 border-green-500"%string
  else if lt s (-0.2) then "bg-red-500/20 border-red-500"%string
  else "bg-yellow-500/20 border-yellow-500"%string.

(** The recommended position size as displayed,
    [totalScore > 0.2 || totalScore < -0.2 ? positionSize.toFixed(1) : "0.0"]:
    the number that is shown, before it is rounded to one decimal. *)
Definition shownPositionSize (totalScore positionSize : num) : num :=
  if gt totalScore 0.2 || lt totalScore (-0.2) then positionSize else Finite 0.

(* ================================================================= *)
(** ** Predicates and sample inputs of the statements *)

Definition nonneg_finite (x : num) : Prop := exists r, x = Finite r /\ 0 <= r.

Definition finite_prices (data : list PricePoint) : Prop :=
  Forall (fun d => is_finite (price d)) data.

Definition flat_prices (c : R) (sl : list PricePoint) : Prop :=
  Forall (fun d => price d = Finite c) sl.

(** The invariant of the closed-over [gains] and [losses]. *)
Definition accumulators_ok (st : num * num) : Prop :=
  nonneg_finite (fst st) /\ nonneg_finite (snd st).

(** The price the loop of [generateStockData] pushes for day [i], from the
    running [price], and the volume of that day. *)
Definition nextPrice (seed trend : num) (i : Z) (price : num) : num :=
  Math_max
    (add price
         (add (mul (sub (seededRandom (add seed (IZR i))) 0.5) (mul price 0.02))
              trend))
    5.

Definition volumeAt (seed : num) (i : Z) : num :=
  Math_floor (mul (seededRandom (add (add seed (IZR i)) 1000)) 1000000).

(** A series of [n] consecutive days, all with the same price [c]. *)
Definition flatSeries (c : R) (n : nat) : list PricePoint :=
  map (fun k => {| date := Z.of_nat k; price := Finite c; volume := Finite 0 |})
      (seq 0 n).

(** A point with the given price and 200-day average, the other indicators
    being those of the first point of a series. *)
Definition samplePoint (p : num) (s200 : value) : IndicatorPoint :=
  {| ip_date := 0; ip_price := p; ip_volume := Finite 0;
     sma50 := VNull; sma200 := s200; rsi := Finite 50;
     bbUpper := VNull; bbLower := VNull; zScore := Finite 0 |}.

(** The sum of the character codes of a ticker, as a natural number. *)
Definition charCodeSum (ticker : string) : nat :=
  fold_right (fun char acc => (nat_of_ascii char + acc)%nat) 0%nat
             (list_ascii_of_string ticker).

(** A recommendation object with the five counts present. *)
Definition consensus (sb b h s ss : nat) : Recommendations :=
  {| strongBuy := VNum (INR sb); buy := VNum (INR b); hold := VNum (INR h);
     sell := VNum (INR s); strongSell := VNum (INR ss) |}.

(** Every price of the series is a real number between [lo] and [hi]. *)
Definition prices_within (lo hi : R) (data : list PricePoint) : Prop :=
  Forall (fun d => exists x, price d = Finite x /\ lo <= x <= hi) data.

(** A series of [n] consecutive days rising by [step] a day from [start]. *)
Definition risingSeries (start step : R) (n : nat) : list PricePoint :=
  map (fun k => {| date := Z.of_nat k;
                   price := Finite (start + INR k * step);
                   volume := Finite 0 |})
      (seq 0 n).

(** The date [generateStockData] gives to the point of index [k]. *)
Definition dateAt (clock : Clock) (k : Z) : Z :=
  isoDay (setDateBack clock (timeValue clock) (totalPoints - k)).

(** The local time zone keeps one offset from UTC. *)
Definition fixed_offset (clock : Clock) (off : Z) : Prop :=
  forall t isUTC, LocalTZA clock t isUTC = off.

(** The offset of the zone is less than a day, east or west of UTC. *)
Definition offsets_within_a_day (clock : Clock) : Prop :=
  forall t, (- msPerDay < LocalTZA clock t false < msPerDay)%Z.


(** A call at time value [tv] in a zone at the fixed offset [off]. *)
Definition fixedOffsetClock (tv off : Z) : Clock :=
  {| timeValue := tv; LocalTZA := fun _ _ => off |}.

(** A call at time value [tv] in the UTC zone. *)
Definition utcClock (tv : Z) : Clock := fixedOffsetClock tv 0.

(** A call on day 19889 (15 June 2024) at 23:30 UTC, which is 19:30 local
    time in a zone five hours behind UTC that has moved its clocks forward by
    an hour on day 19792 (10 March 2024), from 02:00 to 03:00 local time. *)
Definition springForwardClock : Clock :=
  {| timeValue := (19889 * msPerDay + 23 * msPerHour + msPerHour / 2)%Z;
     LocalTZA := fun t isUTC =>
       if isUTC
       then if (t <? 19792 * msPerDay + 7 * msPerHour)%Z
            then (-5 * msPerHour)%Z else (-4 * msPerHour)%Z
       else if (t <? 19792 * msPerDay + 3 * msPerHour)%Z
            then (-5 * msPerHour)%Z else (-4 * msPerHour)%Z |}.

(* ================================================================= *)
(** ** Arithmetic on finite numbers *)

Ltac case_real :=
  repeat match goal with
  | |- context [Rlt_dec ?a ?b] => destruct (Rlt_dec a b)
  | |- context [Req_dec_T ?a ?b] => destruct (Req_dec_T a b)
  end.

Lemma div_Finite (a b : R) : b <> 0 -> div (Finite a) (Finite b) = Finite (a / b).
Proof. intros Hb. simpl. destruct (Req_dec_T b 0); [contradiction | reflexivity]. Qed.

Lemma sqrt_Finite (a : R) : 0 <= a -> Math_sqrt (Finite a) = Finite (sqrt a).
Proof. intros Ha. simpl. destruct (Rlt_dec a 0); [lra | reflexivity]. Qed.

Lemma or_else_nonzero (a : R) (c : num) : a <> 0 -> or_else (Finite a) c = Finite a.
Proof.
  intros Ha. unfold or_else. simpl.
  destruct (Req_dec_T a 0); [contradiction | reflexivity].
Qed.

Lemma or_else_zero (c : num) : or_else (Finite 0) c = c.
Proof. unfold or_else. simpl. destruct (Req_dec_T 0 0); [reflexivity | lra]. Qed.

Lemma gt_Finite (a b : R) : gt (Finite a) (Finite b) = true <-> b < a.
Proof.
  unfold gt. simpl.
  destruct (Rlt_dec b a); split; intros; auto; try discriminate; contradiction.
Qed.

Lemma lt_Finite (a b : R) : lt (Finite a) (Finite b) = true <-> a < b.
Proof. apply (gt_Finite b a). Qed.

Lemma gt_Finite_false (a b : R) : gt (Finite a) (Finite b) = false <-> a <= b.
Proof.
  unfold gt. simpl. destruct (Rlt_dec b a); split; intros; auto; try discriminate; lra.
Qed.

Lemma sqrt_252_bounds : 15 < sqrt 252 < 16.
Proof.
  split.
  - replace 15 with (sqrt (15 * 15)) by (apply sqrt_square; lra).
    apply sqrt_lt_1; lra.
  - replace 16 with (sqrt (16 * 16)) by (apply sqrt_square; lra).
    apply sqrt_lt_1; lra.
Qed.

(** The guarded divisor [x || c] is never zero and never NaN when [c] is a
    nonzero finite constant. *)
Lemma or_else_safe (x : num) (c : R) :
  c <> 0 -> or_else x c <> Finite 0 /\ or_else x c <> NaN.
Proof.
  intros Hc. unfold or_else. destruct x; simpl.
  - destruct (Req_dec_T r 0); split; try discriminate; congruence.
  - split; discriminate.
  - split; discriminate.
  - split; try discriminate. congruence.
Qed.

Lemma nonneg_finite_0 : nonneg_finite (Finite 0).
Proof. exists 0. split; [reflexivity | lra]. Qed.

Lemma accumulators_ok_init : accumulators_ok (Finite 0, Finite 0).
Proof. split; apply nonneg_finite_0. Qed.

(** ** Slices *)

Lemma In_firstn {A : Type} (n : nat) (l : list A) (x : A) :
  In x (firstn n l) -> In x l.
Proof.
  intros H. rewrite <- (firstn_skipn n l). apply in_or_app. now left.
Qed.

Lemma In_skipn {A : Type} (n : nat) (l : list A) (x : A) :
  In x (skipn n l) -> In x l.
Proof.
  intros H. rewrite <- (firstn_skipn n l). apply in_or_app. now right.
Qed.

Lemma In_slice {A : Type} (l : list A) (a b : Z) (x : A) :
  In x (slice l a b) -> In x l.
Proof. unfold slice. intros H. now apply In_firstn, In_skipn in H. Qed.

Lemma Forall_slice {A : Type} (P : A -> Prop) (l : list A) (a b : Z) :
  Forall P l -> Forall P (slice l a b).
Proof.
  rewrite !Forall_forall. intros H x Hx. apply H. exact (In_slice l a b x Hx).
Qed.

(** A window that lies inside the array has the length its bounds say. *)
Lemma slice_length {A : Type} (l : list A) (a b : Z) :
  (0 <= a <= b)%Z -> (b <= Z.of_nat (length l))%Z ->
  length (slice l a b) = Z.to_nat (b - a).
Proof.
  intros Hab Hb. unfold slice.
  replace (a <? 0)%Z with false by lia.
  replace (b <? 0)%Z with false by lia.
  rewrite length_firstn, length_skipn. lia.
Qed.

(** [slice(-n)] keeps the last [n] elements. *)
Lemma slice_from_last {A : Type} (l : list A) (n : nat) :
  (0 < n)%nat -> slice_from l (- Z.of_nat n) = skipn (length l - n) l.
Proof.
  intros Hn. unfold slice_from, slice.
  set (len := Z.of_nat (length l)).
  assert (Hlen : (0 <= len)%Z) by (unfold len; lia).
  replace (- Z.of_nat n <? 0)%Z with true by lia.
  replace (len <? 0)%Z with false by lia.
  replace (Z.to_nat (Z.max (len + - Z.of_nat n) 0)) with (length l - n)%nat
    by (unfold len; lia).
  apply firstn_all2. rewrite length_skipn. unfold len. lia.
Qed.

(* ================================================================= *)
(** ** The synthetic series *)

Lemma seededRandom_Finite (s : R) :
  seededRandom (Finite s) =
  Finite (sin s * 10000 + - IZR (Zfloor (sin s * 10000))).
Proof. reflexivity. Qed.

(** The generator returns a fractional part: a real in [0, 1). *)
Lemma seededRandom_unit (s : R) :
  exists r, seededRandom (Finite s) = Finite r /\ 0 <= r < 1.
Proof.
  rewrite seededRandom_Finite. eexists. split; [reflexivity |].
  pose proof (Zfloor_bound (sin s * 10000)). lra.
Qed.

Lemma tickerSeed_finite (ticker : string) : is_finite (tickerSeed ticker).
Proof.
  unfold tickerSeed. generalize 0 as s.
  induction (list_ascii_of_string ticker) as [| c cs IH]; intros s; simpl.
  - exists s. reflexivity.
  - apply IH.
Qed.

Lemma nextPrice_floor (s t x : R) (i : Z) :
  exists r, nextPrice (Finite s) (Finite t) i (Finite x) = Finite r /\ 5 <= r.
Proof.
  unfold nextPrice.
  replace (add (Finite s) (Finite (IZR i))) with (Finite (s + IZR i)) by reflexivity.
  rewrite seededRandom_Finite. simpl.
  eexists. split; [reflexivity | apply Rmax_r].
Qed.

Section GenerateLoop.

Variables seed trend : num.

Lemma generateLoop_app clock n :
  forall i price data,
    generateLoop clock seed trend n i price data =
    data ++ generateLoop clock seed trend n i price [].
Proof.
  induction n as [| n IH]; intros i price data; cbn [generateLoop].
  - now rewrite app_nil_r.
  - rewrite IH. rewrite (IH _ _ ([] ++ _)). now rewrite app_assoc.
Qed.

(** One iteration of the loop pushes one point. *)
Lemma generateLoop_S clock n i price :
  generateLoop clock seed trend (S n) i price [] =
  {| date := dateAt clock i;
     price := nextPrice seed trend i price;
     volume := volumeAt seed i |}
    :: generateLoop clock seed trend n (i + 1)%Z (nextPrice seed trend i price) [].
Proof. cbn [generateLoop]. rewrite generateLoop_app. reflexivity. Qed.

Lemma generateLoop_length clock n :
  forall i price, length (generateLoop clock seed trend n i price []) = n.
Proof.
  induction n as [| n IH]; intros i price.
  - reflexivity.
  - rewrite generateLoop_S. simpl. now rewrite IH.
Qed.

Lemma generateLoop_date clock n :
  forall i price k p,
    nth_error (generateLoop clock seed trend n i price []) k = Some p ->
    date p = dateAt clock (i + Z.of_nat k).
Proof.
  induction n as [| n IH]; intros i price k p Hp.
  - destruct k; discriminate.
  - rewrite generateLoop_S in Hp. destruct k as [| k]; cbn [nth_error] in Hp.
    + assert (E : {| date := dateAt clock i;
                     price := nextPrice seed trend i price;
                     volume := volumeAt seed i |} = p) by congruence.
      rewrite <- E. cbn [date]. f_equal. lia.
    + apply IH in Hp. rewrite Hp. f_equal. lia.
Qed.

(** Prices and volumes do not depend on the clock. *)
Lemma generateLoop_clock clock1 clock2 n :
  forall i x,
    map price (generateLoop clock1 seed trend n i x []) =
    map price (generateLoop clock2 seed trend n i x []) /\
    map volume (generateLoop clock1 seed trend n i x []) =
    map volume (generateLoop clock2 seed trend n i x []).
Proof.
  induction n as [| n IH]; intros i x.
  - split; reflexivity.
  - rewrite !generateLoop_S. cbn [map price volume].
    destruct (IH (i + 1)%Z (nextPrice seed trend i x)) as [-> ->].
    split; reflexivity.
Qed.

(** Two clocks that date every point alike give the same series. *)
Lemma generateLoop_same_dates clock1 clock2 n :
  (forall k, dateAt clock1 k = dateAt clock2 k) ->
  forall i x,
    generateLoop clock1 seed trend n i x [] =
    generateLoop clock2 seed trend n i x [].
Proof.
  intros Hd. induction n as [| n IH]; intros i x.
  - reflexivity.
  - rewrite !generateLoop_S. rewrite Hd. f_equal. apply IH.
Qed.

End GenerateLoop.

(** The dates do not depend on the seed, the drift or the first price. *)
Lemma generateLoop_dates clock n :
  forall seed1 trend1 seed2 trend2 i x1 x2,
    map date (generateLoop clock seed1 trend1 n i x1 []) =
    map date (generateLoop clock seed2 trend2 n i x2 []).
Proof.
  induction n as [| n IH]; intros seed1 trend1 seed2 trend2 i x1 x2.
  - reflexivity.
  - rewrite !generateLoop_S. cbn [map date]. f_equal. apply IH.
Qed.

Lemma generateLoop_prices clock (s t : R) n :
  forall i (x : R) p,
    In p (generateLoop clock (Finite s) (Finite t) n i (Finite x) []) ->
    exists r, price p = Finite r /\ 5 <= r.
Proof.
  induction n as [| n IH]; intros i x p Hp.
  - contradiction.
  - rewrite generateLoop_S in Hp.
    destruct (nextPrice_floor s t x i) as (r & Hr & Hge).
    destruct Hp as [<- | Hp].
    + simpl. exists r. auto.
    + rewrite Hr in Hp. exact (IH _ _ _ Hp).
Qed.

Lemma generateStockData_length clock ticker :
  length (generateStockData clock ticker) = 400%nat.
Proof. unfold generateStockData. now rewrite generateLoop_length. Qed.

Lemma nth_error_exists {A : Type} (l : list A) (k : nat) :
  (k < length l)%nat -> exists x, nth_error l k = Some x.
Proof.
  intros Hk. destruct (nth_error l k) as [x |] eqn:E.
  - exists x. reflexivity.
  - apply nth_error_None in E. lia.
Qed.

Lemma generateStockData_loop clock ticker :
  generateStockData clock ticker =
  generateLoop clock (tickerSeed ticker)
    (mul (sub (seededRandom (add (tickerSeed ticker) 1)) 0.5) 0.2)
    (Z.to_nat totalPoints) 0%Z
    (add 100 (mul (seededRandom (tickerSeed ticker)) 50)) [].
Proof. reflexivity. Qed.

Lemma generateStockData_date clock ticker k p :
  nth_error (generateStockData clock ticker) k = Some p ->
  date p = dateAt clock (Z.of_nat k).
Proof.
  unfold generateStockData. intros Hp.
  apply generateLoop_date in Hp. rewrite Hp. f_equal.
Qed.

(** Two equal series have the same first date. *)
Lemma generateStockData_first_date clock1 clock2 ticker :
  generateStockData clock1 ticker = generateStockData clock2 ticker ->
  dateAt clock1 0 = dateAt clock2 0.
Proof.
  intros E.
  destruct (nth_error_exists (generateStockData clock1 ticker) 0) as [p Hp];
    [rewrite generateStockData_length; lia |].
  pose proof (generateStockData_date clock1 ticker 0 p Hp) as H1.
  rewrite E in Hp.
  pose proof (generateStockData_date clock2 ticker 0 p Hp) as H2.
  change (Z.of_nat 0) with 0%Z in H1, H2. congruence.
Qed.

Lemma fixedOffsetClock_fixed tv off : fixed_offset (fixedOffsetClock tv off) off.
Proof. intros t isUTC. reflexivity. Qed.



(** In a zone at a fixed offset the date of a point is the UTC day of the
    call moved back by the number of days that [setDate] subtracts. *)
Lemma dateAt_fixed_offset clock off k :
  fixed_offset clock off ->
  dateAt clock k = (Day (timeValue clock) - (totalPoints - k))%Z.
Proof.
  intros Hoff. unfold dateAt, isoDay, setDateBack, UTC, LocalTime.
  rewrite !Hoff. unfold Day.
  replace (timeValue clock + off - (totalPoints - k) * msPerDay - off)%Z
    with (timeValue clock + (- (totalPoints - k)) * msPerDay)%Z by ring.
  rewrite Z.div_add by (unfold msPerDay; lia). ring.
Qed.

(** With an offset of less than a day, the date of a point is the local
    day that [setDate] has set, or one of its two neighbours. *)
Lemma dateAt_local_day clock k :
  offsets_within_a_day clock ->
  (Day (LocalTime clock (timeValue clock)) - (totalPoints - k) - 1
   <= dateAt clock k
   <= Day (LocalTime clock (timeValue clock)) - (totalPoints - k) + 1)%Z.
Proof.
  intros Hday. unfold dateAt, isoDay, setDateBack, UTC, Day.
  set (L := LocalTime clock (timeValue clock)).
  set (n := (totalPoints - k)%Z).
  pose proof (Hday (L - n * msPerDay)%Z) as Hz.
  assert (D : (msPerDay <> 0)%Z) by (unfold msPerDay; lia).
  assert (D' : (0 < msPerDay)%Z) by (unfold msPerDay; lia).
  pose proof (Z.div_add L (- n - 1) msPerDay D) as E1.
  pose proof (Z.div_add L (- n + 1) msPerDay D) as E2.
  split.
  - replace (L / msPerDay - n - 1)%Z with (L / msPerDay + (- n - 1))%Z by ring.
    rewrite <- E1. apply Z.div_le_mono; lia.
  - replace (L / msPerDay - n + 1)%Z with (L / msPerDay + (- n + 1))%Z by ring.
    rewrite <- E2. apply Z.div_le_mono; lia.
Qed.




(* ================================================================= *)
(** ** The indicator pass, point by point *)

Lemma rsiFormula_range (a b : R) :
  0 <= a -> 0 <= b ->
  exists r, rsiFormula (Finite a) (Finite b) = Finite r /\ 0 <= r <= 100.
Proof.
  intros Ha Hb. unfold rsiFormula.
  assert (Hc : exists c, or_else (Finite b) 1 = Finite c /\ 0 < c).
  { destruct (Req_dec_T b 0) as [E | E].
    - subst b. rewrite or_else_zero. exists 1. split; [reflexivity | lra].
    - rewrite or_else_nonzero by assumption. exists b. split; [reflexivity | lra]. }
  destruct Hc as (c & -> & Hc).
  rewrite div_Finite by lra.
  assert (Hq : 0 <= a / c) by (apply Rle_mult_inv_pos; assumption).
  replace (add 1 (Finite (a / c))) with (Finite (1 + a / c)) by reflexivity.
  rewrite div_Finite by lra.
  exists (100 + - (100 / (1 + a / c))). split; [reflexivity |].
  assert (H1 : 0 < 100 / (1 + a / c)) by (apply Rdiv_lt_0_compat; lra).
  assert (H2 : 100 / (1 + a / c) <= 100).
  { assert (E : 100 / (1 + a / c) * (1 + a / c) = 100) by (field; lra).
    nra. }
  lra.
Qed.

Lemma rsiFormula_avg_range (g l : num) :
  nonneg_finite g -> nonneg_finite l ->
  exists r,
    rsiFormula (div g (IZR rsiPeriod)) (div l (IZR rsiPeriod)) = Finite r /\
    0 <= r <= 100.
Proof.
  intros (a & -> & Ha) (b & -> & Hb). unfold rsiPeriod.
  rewrite !div_Finite by lra.
  apply rsiFormula_range; apply Rle_mult_inv_pos; lra.
Qed.

(** One update of the gain and loss accumulators by a price change. *)
Lemma gain_loss_update (g l : num) (x y : R) :
  nonneg_finite g -> nonneg_finite l ->
  accumulators_ok (if gt (sub (Finite x) (Finite y)) 0
                   then (add g (sub (Finite x) (Finite y)), l)
                   else (g, sub l (sub (Finite x) (Finite y)))).
Proof.
  intros (a & -> & Ha) (b & -> & Hb).
  replace (sub (Finite x) (Finite y)) with (Finite (x + - y)) by reflexivity.
  destruct (gt (Finite (x + - y)) 0) eqn:E.
  - apply gt_Finite in E. split; simpl.
    + exists (a + (x + - y)). split; [reflexivity | lra].
    + exists b. auto.
  - apply gt_Finite_false in E. split; simpl.
    + exists a. auto.
    + exists (b + - (x + - y)). split; [reflexivity | lra].
Qed.

Lemma windowGainLoss_nonneg sl :
  finite_prices sl ->
  forall g l, nonneg_finite g -> nonneg_finite l ->
  accumulators_ok (windowGainLoss sl g l).
Proof.
  induction sl as [| a sl IH]; intros Hfin g l Hg Hl.
  - split; assumption.
  - destruct sl as [| b sl'].
    + split; assumption.
    + inversion Hfin as [| ? ? [x Hx] Hfin']; subst.
      pose proof Hfin' as Hfin''.
      inversion Hfin'' as [| ? ? [y Hy] _]; subst.
      change (windowGainLoss (a :: b :: sl') g l)
        with (let d := sub (price b) (price a) in
              if gt d 0 then windowGainLoss (b :: sl') (add g d) l
              else windowGainLoss (b :: sl') g (sub l d)).
      cbv zeta. rewrite Hx, Hy.
      destruct (gain_loss_update g l y x Hg Hl) as [H1 H2].
      destruct (gt (sub (Finite y) (Finite x)) 0); simpl in H1, H2;
        apply IH; assumption.
Qed.

Lemma fold_prices_finite sl :
  finite_prices sl ->
  forall s : R,
    exists r, fold_left (fun a b => add a (price b)) sl (Finite s) = Finite r.
Proof.
  induction sl as [| d sl IH]; intros Hfin s; simpl.
  - exists s. reflexivity.
  - inversion Hfin as [| ? ? [x Hx] Hfin']; subst. rewrite Hx. simpl.
    apply IH. assumption.
Qed.

Lemma fold_squares_nonneg sl (m : R) :
  finite_prices sl ->
  forall s : R, 0 <= s ->
    exists r,
      fold_left (fun a b => add a (Math_pow (sub (price b) (Finite m)) 2))
                sl (Finite s) = Finite r /\ 0 <= r.
Proof.
  induction sl as [| d sl IH]; intros Hfin s Hs; simpl.
  - exists s. auto.
  - inversion Hfin as [| ? ? [x Hx] Hfin']; subst. rewrite Hx. simpl.
    apply IH; [assumption |].
    pose proof (Rle_0_sqr (x + - m)) as Hsq. unfold Rsqr in Hsq.
    rewrite Rmult_1_r. lra.
Qed.

Section IndicatorPass.

Variable data : list PricePoint.

Lemma indicatorStep_state st day i :
  fst (indicatorStep data st day i) = fst (rsiStep data st day i).
Proof.
  unfold indicatorStep.
  destruct (rsiStep data st day i) as [[g l] r].
  destruct (bollingerAt data day i) as [[u lo] z]. reflexivity.
Qed.

Lemma indicatorStep_point st day i :
  snd (indicatorStep data st day i) =
  {| ip_date := date day; ip_price := price day; ip_volume := volume day;
     sma50 := smaAt data period50 i; sma200 := smaAt data period200 i;
     rsi := snd (rsiStep data st day i);
     bbUpper := fst (fst (bollingerAt data day i));
     bbLower := snd (fst (bollingerAt data day i));
     zScore := snd (bollingerAt data day i) |}.
Proof.
  unfold indicatorStep.
  destruct (rsiStep data st day i) as [[g l] r].
  destruct (bollingerAt data day i) as [[u lo] z]. reflexivity.
Qed.

Lemma mapIndicators_length rest i st :
  length (mapIndicators data rest i st) = length rest.
Proof.
  revert i st. induction rest as [| day rest IH]; intros i st; simpl.
  - reflexivity.
  - destruct (indicatorStep data st day i) as [st' pt]. simpl. now rewrite IH.
Qed.

Lemma dataWithIndicators_length :
  length (dataWithIndicators data) = length data.
Proof. apply mapIndicators_length. Qed.

(** The point at position [k] of the pass is the callback applied to
    [data[k]] and [k], in a state that satisfies every invariant [P] of the
    callback which holds initially. *)
Lemma mapIndicators_nth (P : num * num -> Prop) :
  (forall st day n, P st -> nth_error data n = Some day ->
                    P (fst (indicatorStep data st day (Z.of_nat n)))) ->
  forall rest n st, rest = skipn n data -> P st ->
  forall k, (k < length rest)%nat ->
  exists st' day,
    P st' /\ nth_error data (n + k) = Some day /\
    nth_error (mapIndicators data rest (Z.of_nat n) st) k =
      Some (snd (indicatorStep data st' day (Z.of_nat (n + k)))).
Proof.
  intros Hstep rest.
  induction rest as [| day rest IH]; intros n st Hrest Hst k Hk.
  - simpl in Hk. lia.
  - assert (Hday : nth_error data n = Some day).
    { rewrite <- (Nat.add_0_r n), <- nth_error_skipn, <- Hrest. reflexivity. }
    assert (Hrest' : rest = skipn (S n) data).
    { replace (S n) with (1 + n)%nat by lia.
      rewrite <- skipn_skipn, <- Hrest. reflexivity. }
    simpl. destruct (indicatorStep data st day (Z.of_nat n)) as [st1 pt] eqn:E.
    destruct k as [| k].
    + exists st, day. rewrite Nat.add_0_r, E. auto.
    + simpl in Hk.
      assert (Hst1 : P st1).
      { replace st1 with (fst (indicatorStep data st day (Z.of_nat n)))
          by (rewrite E; reflexivity).
        apply Hstep; assumption. }
      destruct (IH (S n) st1 Hrest' Hst1 k ltac:(lia))
        as (st' & day' & HP & Hd & Hn).
      exists st', day'.
      replace (n + S k)%nat with (S n + k)%nat by lia.
      repeat split; try assumption.
      simpl. replace (Z.of_nat n + 1)%Z with (Z.of_nat (S n)) by lia.
      exact Hn.
Qed.

Lemma dataWithIndicators_nth (P : num * num -> Prop) :
  (forall st day n, P st -> nth_error data n = Some day ->
                    P (fst (indicatorStep data st day (Z.of_nat n)))) ->
  P (Finite 0, Finite 0) ->
  forall k, (k < length data)%nat ->
  exists st day,
    P st /\ nth_error data k = Some day /\
    nth_error (dataWithIndicators data) k =
      Some (snd (indicatorStep data st day (Z.of_nat k))).
Proof.
  intros Hstep H0 k Hk.
  exact (mapIndicators_nth P Hstep data 0%nat _ eq_refl H0 k Hk).
Qed.

Lemma point_at k :
  (k < length data)%nat ->
  exists st day,
    nth_error data k = Some day /\
    nth_error (dataWithIndicators data) k =
      Some (snd (indicatorStep data st day (Z.of_nat k))).
Proof.
  intros Hk.
  destruct (dataWithIndicators_nth (fun _ => True)
              (fun _ _ _ _ _ => I) I k Hk) as (st & day & _ & Hday & Hnth).
  exists st, day. auto.
Qed.

(** The truncation keeps the last 200 points. *)
Lemma calculateIndicators_skipn :
  calculateIndicators data =
  skipn (length data - 200) (dataWithIndicators data).
Proof.
  unfold calculateIndicators.
  change (-200)%Z with (- Z.of_nat 200)%Z.
  rewrite (slice_from_last (dataWithIndicators data) 200) by lia.
  now rewrite dataWithIndicators_length.
Qed.

Lemma calculateIndicators_short :
  (length data <= 200)%nat -> calculateIndicators data = dataWithIndicators data.
Proof.
  intros H. rewrite calculateIndicators_skipn.
  replace (length data - 200)%nat with 0%nat by lia. reflexivity.
Qed.

Lemma calculateIndicators_length :
  length (calculateIndicators data) = Nat.min (length data) 200.
Proof.
  rewrite calculateIndicators_skipn, length_skipn, dataWithIndicators_length.
  lia.
Qed.

(** RSI before the bootstrap index. *)
Lemma rsiStep_default st day i :
  (i < rsiPeriod)%Z -> snd (rsiStep data st day i) = Finite 50.
Proof.
  unfold rsiPeriod. intros Hi. unfold rsiStep. destruct st as [gains losses].
  destruct (0 <? i)%Z; [| reflexivity].
  replace (i <=? rsiPeriod)%Z with true by (unfold rsiPeriod; lia).
  replace (i =? rsiPeriod)%Z with false by (unfold rsiPeriod; lia).
  destruct (gt _ _); reflexivity.
Qed.

(** Bollinger bands before index 20. *)
Lemma bollingerAt_early day i :
  (i < 20)%Z -> bollingerAt data day i = (VNull, VNull, Finite 0).
Proof.
  intros Hi. unfold bollingerAt.
  replace (20 <=? i)%Z with false by lia. reflexivity.
Qed.

(** The averages before their window is filled. *)
Lemma smaAt_early period i :
  (i < period - 1)%Z -> smaAt data period i = VNull.
Proof.
  intros Hi. unfold smaAt.
  replace (period - 1 <=? i)%Z with false by lia. reflexivity.
Qed.

End IndicatorPass.

(** ** The pass on finite prices *)

Section FinitePrices.

Variable data : list PricePoint.
Hypothesis Hfin : finite_prices data.

Lemma finite_price_at n day :
  nth_error data n = Some day -> is_finite (price day).
Proof.
  intros Hday. apply nth_error_In in Hday.
  unfold finite_prices in Hfin. rewrite Forall_forall in Hfin. auto.
Qed.

Lemma priceAt_finite n :
  (n < length data)%nat -> is_finite (priceAt data (Z.of_nat n)).
Proof.
  intros Hn. unfold priceAt. rewrite Nat2Z.id.
  destruct (nth_error data n) as [d |] eqn:E.
  - exact (finite_price_at n d E).
  - apply nth_error_None in E. lia.
Qed.

(** The accumulators stay non-negative reals along the pass, and the RSI
    of every step is a real in [0, 100]. *)
Lemma rsiStep_range st day n :
  accumulators_ok st ->
  nth_error data n = Some day ->
  accumulators_ok (fst (rsiStep data st day (Z.of_nat n))) /\
  exists r, snd (rsiStep data st day (Z.of_nat n)) = Finite r /\ 0 <= r <= 100.
Proof.
  intros [Hg Hl] Hday. destruct st as [gains losses]. simpl in Hg, Hl.
  unfold rsiStep.
  destruct (0 <? Z.of_nat n)%Z eqn:Hpos.
  2: { split; [split; assumption |]. exists 50. split; [reflexivity | lra]. }
  destruct (Z.of_nat n <=? rsiPeriod)%Z eqn:Hboot.
  - assert (Hn : (n < length data)%nat) by (apply nth_error_Some; congruence).
    destruct (priceAt_finite (n - 1) ltac:(lia)) as [y Hy].
    replace (Z.of_nat (n - 1)) with (Z.of_nat n - 1)%Z in Hy by lia.
    rewrite Hy.
    destruct (finite_price_at n day Hday) as [x Hx]. rewrite Hx.
    pose proof (gain_loss_update gains losses x y Hg Hl) as Hok.
    destruct (if gt (sub (Finite x) (Finite y)) 0
              then (add gains (sub (Finite x) (Finite y)), losses)
              else (gains, sub losses (sub (Finite x) (Finite y))))
      as [gains' losses'].
    destruct (Z.of_nat n =? rsiPeriod)%Z; (split; [exact Hok |]).
    + apply rsiFormula_avg_range; apply Hok.
    + exists 50. split; [reflexivity | lra].
  - pose proof (Forall_slice _ data (Z.of_nat n - rsiPeriod + 1)
                             (Z.of_nat n + 1) Hfin) as Hsl.
    pose proof (windowGainLoss_nonneg _ Hsl (Finite 0) (Finite 0)
                  nonneg_finite_0 nonneg_finite_0) as Hok.
    destruct (windowGainLoss _ (Finite 0) (Finite 0)) as [g l].
    split; [split; assumption |].
    apply rsiFormula_avg_range; apply Hok.
Qed.

Lemma accumulators_ok_step st day n :
  accumulators_ok st -> nth_error data n = Some day ->
  accumulators_ok (fst (indicatorStep data st day (Z.of_nat n))).
Proof.
  intros Hst Hday. rewrite indicatorStep_state.
  apply rsiStep_range; assumption.
Qed.

Lemma rsi_range_at k p :
  nth_error (dataWithIndicators data) k = Some p ->
  exists r, rsi p = Finite r /\ 0 <= r <= 100.
Proof.
  intros Hp.
  assert (Hk : (k < length data)%nat).
  { rewrite <- dataWithIndicators_length. apply nth_error_Some. congruence. }
  destruct (dataWithIndicators_nth data accumulators_ok
              accumulators_ok_step accumulators_ok_init k Hk)
    as (st & day & Hst & Hday & Hnth).
  rewrite Hnth in Hp. injection Hp as <-.
  rewrite indicatorStep_point. cbn [rsi].
  apply rsiStep_range; assumption.
Qed.

(** From index 20 on: the bands are [mean + 2 sd] and [mean - 2 sd] for
    real numbers [mean] and [sd >= 0], and the z-score is the deviation
    from the mean divided by [sd], or by 1 when [sd] is 0. *)
Lemma bollingerAt_finite day i (x : R) :
  price day = Finite x -> (20 <= i)%Z ->
  exists mean sd : R,
    0 <= sd /\
    bollingerAt data day i =
    (VNum (Finite (mean + 2 * sd)),
     VNum (Finite (mean + - (2 * sd))),
     Finite ((x + - mean) / (if Req_dec_T sd 0 then 1 else sd))).
Proof.
  intros Hx Hi. unfold bollingerAt.
  replace (20 <=? i)%Z with true by lia.
  pose proof (Forall_slice _ data (i - 19) (i + 1) Hfin) as Hsl.
  destruct (fold_prices_finite _ Hsl 0) as [s Hs]. rewrite Hs.
  rewrite div_Finite by lra.
  destruct (fold_squares_nonneg _ (s / 20) Hsl 0 (Rle_refl 0)) as (v & Hv & Hv0).
  rewrite Hv. rewrite div_Finite by lra.
  assert (Hvar : 0 <= v / 20) by (apply Rle_mult_inv_pos; lra).
  rewrite sqrt_Finite by assumption.
  exists (s / 20), (sqrt (v / 20)). split; [apply sqrt_pos |].
  rewrite Hx.
  destruct (Req_dec_T (sqrt (v / 20)) 0) as [E | E].
  - rewrite E. rewrite or_else_zero. simpl.
    destruct (Req_dec_T 1 0); [lra | reflexivity].
  - rewrite or_else_nonzero by assumption. simpl.
    destruct (Req_dec_T (sqrt (v / 20)) 0); [contradiction | reflexivity].
Qed.

Lemma zScore_finite_at k p :
  nth_error (dataWithIndicators data) k = Some p -> is_finite (zScore p).
Proof.
  intros Hp.
  assert (Hk : (k < length data)%nat).
  { rewrite <- dataWithIndicators_length. apply nth_error_Some. congruence. }
  destruct (point_at data k Hk) as (st & day & Hday & Hnth).
  rewrite Hnth in Hp. injection Hp as <-.
  rewrite indicatorStep_point. cbn [zScore].
  destruct (Z.le_gt_cases 20 (Z.of_nat k)) as [Hge | Hlt].
  - destruct (finite_price_at k day Hday) as [x Hx].
    destruct (bollingerAt_finite day (Z.of_nat k) x Hx Hge)
      as (mean & sd & _ & ->).
    eexists. reflexivity.
  - rewrite bollingerAt_early by lia. exists 0. reflexivity.
Qed.

End FinitePrices.

(** ** Flat series and the divisor guard *)

Lemma flatSeries_length c n : length (flatSeries c n) = n.
Proof. unfold flatSeries. now rewrite length_map, length_seq. Qed.

Lemma flatSeries_flat c n : flat_prices c (flatSeries c n).
Proof.
  unfold flat_prices, flatSeries. apply Forall_forall. intros d Hd.
  apply in_map_iff in Hd. destruct Hd as (k & <- & _). reflexivity.
Qed.

Lemma flatSeries_finite c n : finite_prices (flatSeries c n).
Proof.
  unfold finite_prices. eapply Forall_impl; [| apply (flatSeries_flat c n)].
  intros d Hd. exists c. exact Hd.
Qed.

Lemma flatSeries_price c n k day :
  nth_error (flatSeries c n) k = Some day -> price day = Finite c.
Proof.
  intros Hday. apply nth_error_In in Hday.
  pose proof (flatSeries_flat c n) as Hflat.
  unfold flat_prices in Hflat. rewrite Forall_forall in Hflat. auto.
Qed.

Lemma fold_prices_flat c sl :
  flat_prices c sl ->
  forall s : R,
    fold_left (fun a b => add a (price b)) sl (Finite s) =
    Finite (s + INR (length sl) * c).
Proof.
  induction sl as [| d sl IH]; intros Hflat s.
  - simpl. f_equal. lra.
  - inversion Hflat as [| ? ? Hd Hflat']; subst.
    cbn [fold_left]. rewrite Hd. cbn [add]. rewrite IH by assumption.
    f_equal. cbn [length]. rewrite S_INR. lra.
Qed.

Lemma fold_squares_flat c sl :
  flat_prices c sl ->
  forall s : R,
    fold_left (fun a b => add a (Math_pow (sub (price b) (Finite c)) 2))
              sl (Finite s) = Finite s.
Proof.
  induction sl as [| d sl IH]; intros Hflat s.
  - reflexivity.
  - inversion Hflat as [| ? ? Hd Hflat']; subst.
    cbn [fold_left]. rewrite Hd. simpl.
    replace (s + (c + - c) * ((c + - c) * 1)) with s by ring.
    apply IH. assumption.
Qed.

(** On a window of twenty identical prices [c] the deviation is 0, the
    divisor guard replaces it by 1, and the z-score is 0; both bands are at
    [c].  In a flat series this is the case at every index from 20 on. *)
Lemma bollingerAt_flat (c : R) (n : nat) (day : PricePoint) (i : Z) :
  price day = Finite c -> (20 <= i < Z.of_nat n)%Z ->
  bollingerAt (flatSeries c n) day i =
  (VNum (Finite c), VNum (Finite c), Finite 0).
Proof.
  intros Hday Hi. unfold bollingerAt.
  replace (20 <=? i)%Z with true by lia.
  set (sl := slice (flatSeries c n) (i - 19) (i + 1)).
  assert (Hflat : flat_prices c sl)
    by (apply Forall_slice, flatSeries_flat).
  assert (Hlen : length sl = 20%nat).
  { unfold sl. rewrite slice_length by (rewrite ?flatSeries_length; lia). lia. }
  rewrite (fold_prices_flat c sl Hflat 0), Hlen.
  rewrite div_Finite by lra.
  replace ((0 + INR 20 * c) / 20) with c by (simpl; field).
  rewrite (fold_squares_flat c sl Hflat 0).
  rewrite div_Finite by lra.
  replace (0 / 20) with 0 by field.
  rewrite sqrt_Finite by lra. rewrite sqrt_0, or_else_zero, Hday.
  simpl. destruct (Req_dec_T 1 0); [lra |].
  repeat f_equal; field.
Qed.

(** In a flat series of 21 points, the point at index 20 is the first with
    Bollinger bands, and its z-score is the guarded quotient. *)
Lemma bollinger_present_at_index_20 :
  exists p,
    nth_error (calculateIndicators (flatSeries 100 21)) 20 = Some p /\
    bbUpper p = VNum (Finite 100) /\ bbLower p = VNum (Finite 100) /\
    zScore p = Finite 0.
Proof.
  destruct (point_at (flatSeries 100 21) 20) as (st & day & Hday & Hnth).
  { rewrite flatSeries_length. lia. }
  eexists. split.
  - rewrite calculateIndicators_short by (rewrite flatSeries_length; lia).
    exact Hnth.
  - rewrite indicatorStep_point. cbn [bbUpper bbLower zScore].
    rewrite (bollingerAt_flat 100 21 day (Z.of_nat 20)
               (flatSeries_price _ _ _ _ Hday)) by lia.
    auto.
Qed.

(** The last point of a flat series shorter than 200 points: its price is
    the price of the series and its [sma200] is [null]. *)
Lemma last_point_short (c : R) (n : nat) :
  (1 <= n < 200)%nat ->
  exists p,
    pointFromEnd (calculateIndicators (flatSeries c n)) 1 = Some p /\
    ip_price p = Finite c /\ sma200 p = VNull.
Proof.
  intros Hn.
  destruct (point_at (flatSeries c n) (n - 1)) as (st & day & Hday & Hnth).
  { rewrite flatSeries_length. lia. }
  eexists. split; [| split].
  - unfold pointFromEnd.
    rewrite calculateIndicators_length, flatSeries_length.
    replace (Nat.min n 200) with n by lia.
    replace (Nat.leb 1 n) with true by (symmetry; apply Nat.leb_le; lia).
    rewrite calculateIndicators_short by (rewrite flatSeries_length; lia).
    exact Hnth.
  - rewrite indicatorStep_point. cbn [ip_price].
    exact (flatSeries_price _ _ _ _ Hday).
  - rewrite indicatorStep_point. cbn [sma200].
    apply smaAt_early. unfold period200. lia.
Qed.

(* ================================================================= *)
(** ** The derived signals *)

Lemma trendScore_null (p : IndicatorPoint) (x : R) :
  ip_price p = Finite x -> sma200 p = VNull -> 0 < x ->
  trendScore (Some p) = Finite 1.
Proof.
  intros Hx Hs Hpos. unfold trendScore, field, price_field.
  rewrite Hx, Hs. cbn [toNumber].
  replace (gt (Finite x) (Finite 0)) with true
    by (symmetry; apply gt_Finite; assumption).
  reflexivity.
Qed.

Lemma volatility_finite (cur prev : IndicatorPoint) (x y : R) :
  ip_price cur = Finite x -> ip_price prev = Finite y -> y <> 0 ->
  volatility (Some cur) (Some prev) = Finite ((x - y) / y).
Proof.
  intros Hx Hy Hnz. unfold volatility. simpl. rewrite Hx, Hy. simpl.
  destruct (Req_dec_T y 0); [contradiction | reflexivity].
Qed.

(** Without a previous point the daily return is NaN. *)
Lemma volatility_no_prev (cur : option IndicatorPoint) :
  volatility cur None = NaN.
Proof.
  unfold volatility. cbn [field toNumber].
  destruct (toNumber (field price_field cur)); reflexivity.
Qed.

Lemma annualizedVol_finite (cur prev : IndicatorPoint) (x y : R) :
  ip_price cur = Finite x -> ip_price prev = Finite y -> y <> 0 ->
  annualizedVol (Some cur) (Some prev) = Finite (Rabs ((x - y) / y * sqrt 252)).
Proof.
  intros Hx Hy Hnz. unfold annualizedVol.
  rewrite (volatility_finite cur prev x y Hx Hy Hnz).
  rewrite sqrt_Finite by lra. reflexivity.
Qed.

(** The annualized volatility is an absolute value: a non-negative real,
    [Infinity] or NaN. *)
Lemma annualizedVol_cases (cur prev : option IndicatorPoint) :
  (exists a, annualizedVol cur prev = Finite a /\ 0 <= a) \/
  annualizedVol cur prev = PosInf \/ annualizedVol cur prev = NaN.
Proof.
  unfold annualizedVol.
  destruct (mul (volatility cur prev) (Math_sqrt 252)) as [a| | |]; simpl; auto.
  left. exists (Rabs a). split; [reflexivity | apply Rabs_pos].
Qed.

(** The size before the cap is a non-negative real for a finite score. *)
Lemma rawSize_nonneg (cur prev : option IndicatorPoint) (t : R) :
  nonneg_finite (rawSize cur prev (Finite t)).
Proof.
  unfold rawSize, targetVol, nonneg_finite.
  destruct (annualizedVol_cases cur prev) as [[a [Ha Hpos]] | [Ha | Ha]]; rewrite Ha.
  - destruct (Req_dec_T a 0) as [Hz | Hnz].
    + subst a. rewrite or_else_zero. rewrite div_Finite by lra. simpl.
      eexists; split; [reflexivity |].
      apply Rmult_le_pos; [lra | apply Rabs_pos].
    + rewrite or_else_nonzero by assumption. rewrite div_Finite by assumption.
      simpl. eexists; split; [reflexivity |].
      apply Rmult_le_pos; [| apply Rabs_pos].
      apply Rlt_le, Rdiv_lt_0_compat; lra.
  - unfold or_else. simpl. eexists; split; [reflexivity |].
    rewrite Rmult_0_l. lra.
  - replace (or_else NaN 0.01) with (Finite 0.01) by reflexivity.
    rewrite div_Finite by lra. simpl.
    eexists; split; [reflexivity |].
    apply Rmult_le_pos; [lra | apply Rabs_pos].
Qed.

(* ================================================================= *)
(** ** The claims of the specification *)

(** C1, at the failing input.  For twenty identical prices, the point at
    index 19 (the twentieth) has no Bollinger bands: [bbUpper] and [bbLower]
    are [null], and its [zScore] is the initial 0, not a quotient.  The
    callback computes the bands only from index 20 on. *)
Theorem bollinger_absent_at_index_19 :
  exists p,
    nth_error (calculateIndicators (flatSeries 100 20)) 19 = Some p /\
    bbUpper p = VNull /\ bbLower p = VNull /\ zScore p = Finite 0.
Proof.
  destruct (point_at (flatSeries 100 20) 19) as (st & day & _ & Hnth).
  { rewrite flatSeries_length. lia. }
  eexists. split.
  - rewrite calculateIndicators_short by (rewrite flatSeries_length; lia).
    exact Hnth.
  - rewrite indicatorStep_point. cbn [bbUpper bbLower zScore].
    rewrite bollingerAt_early by lia. auto.
Qed.

(** C2, as the code has it.  The divisor of the size before the cap is the
    annualized volatility itself whenever that is a nonzero number, however
    small; 0.01 is substituted only when it is exactly 0 or NaN (the
    [annualizedVol || 0.01] idiom).  An infinite volatility gives size 0. *)
Theorem rawSize_divisor_guard :
  forall (current prev : option IndicatorPoint) (totalScore : R),
    match annualizedVol current prev with
    | Finite a =>
        0 <= a /\
        rawSize current prev totalScore =
        Finite (0.15 / (if Req_dec_T a 0 then 0.01 else a) * Rabs totalScore)
    | NaN =>
        rawSize current prev totalScore = Finite (0.15 / 0.01 * Rabs totalScore)
    | PosInf => rawSize current prev totalScore = Finite 0
    | NegInf => False
    end.
Proof.
  intros cur prev t. unfold rawSize, targetVol.
  destruct (annualizedVol_cases cur prev) as [[a [Ha Hpos]] | [Ha | Ha]]; rewrite Ha.
  - split; [assumption |].
    destruct (Req_dec_T a 0) as [Hz | Hnz].
    + subst a. rewrite or_else_zero. rewrite div_Finite by lra. reflexivity.
    + rewrite or_else_nonzero by assumption.
      rewrite div_Finite by assumption. reflexivity.
  - unfold or_else. simpl. f_equal. apply Rmult_0_l.
  - replace (or_else NaN 0.01) with (Finite 0.01) by reflexivity.
    rewrite div_Finite by lra. reflexivity.
Qed.

(** C2, counterexample: previous price 10000, current price 10001 and total
    score 1.  The annualized volatility, [0.0001 * sqrt 252], is positive and
    below 0.01, and the code divides by it, not by the floor 0.01. *)
Lemma rawSize_floor_counterexample :
  lt (annualizedVol (Some (samplePoint 10001 VNull))
                    (Some (samplePoint 10000 VNull))) 0.01 = true /\
  rawSize (Some (samplePoint 10001 VNull)) (Some (samplePoint 10000 VNull)) 1
  <> mul (div 0.15
              (Math_max (annualizedVol (Some (samplePoint 10001 VNull))
                                       (Some (samplePoint 10000 VNull))) 0.01))
         (Math_abs 1).
Proof.
  pose proof sqrt_252_bounds as [Hlo Hhi].
  unfold rawSize, targetVol.
  rewrite (annualizedVol_finite _ _ 10001 10000) by (reflexivity || lra).
  set (a := Rabs ((10001 - 10000) / 10000 * sqrt 252)).
  assert (Ha : 0 < a < 0.01).
  { unfold a. rewrite Rabs_pos_eq by nra. lra. }
  split.
  - apply lt_Finite. lra.
  - rewrite or_else_nonzero by lra. rewrite div_Finite by lra.
    simpl. rewrite Rmax_right by lra.
    destruct (Req_dec_T 0.01 0) as [E | _]; [lra |].
    intros E. inversion E as [E'].
    rewrite Rabs_pos_eq in E' by lra.
    assert (H1 : 0.15 / a * a = 0.15) by (field; lra).
    assert (H2 : 0.15 / a = 15) by lra.
    rewrite H2 in H1. lra.
Qed.

(** C3, as the code has it.  The standard deviation and the RSI average loss
    are replaced by 1 when they are exactly zero, so on finite prices every
    z-score and every RSI is a real number; a zero or NaN annualized
    volatility is replaced by 0.01, so the position size is a real number
    for every pair of points.  The previous price is divided by as it is:
    the daily return is a real number when it is a nonzero number. *)
Theorem guarded_ratios_finite :
  (forall (data : list PricePoint) (k : nat) (p : IndicatorPoint),
      finite_prices data ->
      nth_error (dataWithIndicators data) k = Some p ->
      is_finite (zScore p) /\ is_finite (rsi p)) /\
  (forall (current prev : IndicatorPoint) (x y : R),
      ip_price current = Finite x -> ip_price prev = Finite y -> y <> 0 ->
      volatility (Some current) (Some prev) = Finite ((x - y) / y)) /\
  (forall (current prev : option IndicatorPoint) (totalScore : R),
      is_finite (positionSize current prev totalScore)) /\
  (forall (x : num) (c : R),
      c <> 0 -> or_else x c <> Finite 0 /\ or_else x c <> NaN).
Proof.
  split; [| split; [| split]].
  - intros data k p Hfin Hp. split.
    + exact (zScore_finite_at data Hfin k p Hp).
    + destruct (rsi_range_at data Hfin k p Hp) as (r & Hr & _).
      exists r. exact Hr.
  - exact volatility_finite.
  - intros cur prev t. unfold positionSize.
    destruct (rawSize_nonneg cur prev t) as (q & -> & _).
    simpl. eexists. reflexivity.
  - exact or_else_safe.
Qed.

(** C3, counterexample: previous price 0 and current price 5, both finite.
    The daily return [(5 - 0) / 0] is [Infinity]: no constant is substituted
    for the zero previous price.  For a series of one point there is no
    previous point, and the daily return is NaN. *)
Lemma daily_return_unguarded_counterexample :
  volatility (Some (samplePoint 5 VNull)) (Some (samplePoint 0 VNull)) = PosInf /\
  ~ is_finite (volatility (Some (samplePoint 5 VNull))
                          (Some (samplePoint 0 VNull))) /\
  volatility (pointFromEnd (calculateIndicators (flatSeries 5 1)) 1)
             (pointFromEnd (calculateIndicators (flatSeries 5 1)) 2) = NaN.
Proof.
  assert (H : volatility (Some (samplePoint 5 VNull))
                         (Some (samplePoint 0 VNull)) = PosInf).
  { unfold volatility, inf_of_sign. simpl. unfold inf_of_sign.
    case_real; try lra; reflexivity. }
  split; [exact H |]. split.
  - rewrite H. intros [r Hr]. discriminate.
  - replace (pointFromEnd (calculateIndicators (flatSeries 5 1)) 2)
      with (@None IndicatorPoint).
    + apply volatility_no_prev.
    + unfold pointFromEnd.
      rewrite calculateIndicators_length, flatSeries_length. reflexivity.
Qed.

(** C4, as the code has it.  For one ticker, two calls return the same
    prices and the same volumes whatever the two clocks show.  The dates
    are computed from the time value and the time zone of the call alone:
    they are the same for every ticker, and when each call is made in a zone
    at a fixed offset from UTC the two series are identical exactly when the
    two calls fall on the same UTC day. *)
Theorem generateStockData_deterministic :
  forall (clock1 clock2 : Clock) (ticker : string),
    map price (generateStockData clock1 ticker) =
    map price (generateStockData clock2 ticker) /\
    map volume (generateStockData clock1 ticker) =
    map volume (generateStockData clock2 ticker) /\
    (forall ticker',
        map date (generateStockData clock1 ticker) =
        map date (generateStockData clock1 ticker')) /\
    (forall off1 off2,
        fixed_offset clock1 off1 -> fixed_offset clock2 off2 ->
        (generateStockData clock1 ticker = generateStockData clock2 ticker <->
         Day (timeValue clock1) = Day (timeValue clock2))).
Proof.
  intros clock1 clock2 ticker.
  pose proof (generateLoop_clock (tickerSeed ticker)
                (mul (sub (seededRandom (add (tickerSeed ticker) 1)) 0.5) 0.2)
                clock1 clock2 (Z.to_nat totalPoints) 0%Z
                (add 100 (mul (seededRandom (tickerSeed ticker)) 50)))
    as [Hprice Hvolume].
  split; [exact Hprice | split; [exact Hvolume | split]].
  - intros ticker'. rewrite !generateStockData_loop. apply generateLoop_dates.
  - intros off1 off2 H1 H2. split.
    + intros E. apply generateStockData_first_date in E.
      rewrite (dateAt_fixed_offset clock1 off1 0 H1) in E.
      rewrite (dateAt_fixed_offset clock2 off2 0 H2) in E. lia.
    + intros E. rewrite !generateStockData_loop.
      apply generateLoop_same_dates. intros k.
      rewrite (dateAt_fixed_offset clock1 off1 k H1).
      rewrite (dateAt_fixed_offset clock2 off2 k H2). rewrite E. reflexivity.
Qed.

Lemma generateStockData_deterministic_witness :
  generateStockData (utcClock 0) "AAPL" =
  generateStockData (fixedOffsetClock msPerHour (-5 * msPerHour)) "AAPL".
Proof.
  destruct (generateStockData_deterministic
              (utcClock 0) (fixedOffsetClock msPerHour (-5 * msPerHour)) "AAPL")
    as (_ & _ & _ & H).
  destruct (H 0%Z (-5 * msPerHour)%Z
              (fixedOffsetClock_fixed 0 0)
              (fixedOffsetClock_fixed msPerHour (-5 * msPerHour)))
    as [_ Hsame].
  apply Hsame. vm_compute. reflexivity.
Defined.

(** C4, counterexample: two calls for the ticker AAPL return different
    series when they are made in the UTC zone on two consecutive days, and
    also when they are made on one local day, at 18:30 and at 19:30, in a
    zone five hours behind UTC (the second call falls on the next UTC day). *)
Lemma generateStockData_clock_counterexample :
  generateStockData (utcClock 0) "AAPL" <>
  generateStockData (utcClock msPerDay) "AAPL" /\
  Day (LocalTime (fixedOffsetClock (23 * msPerHour + msPerHour / 2)
                                   (-5 * msPerHour))
                 (23 * msPerHour + msPerHour / 2)) =
  Day (LocalTime (fixedOffsetClock (24 * msPerHour + msPerHour / 2)
                                   (-5 * msPerHour))
                 (24 * msPerHour + msPerHour / 2)) /\
  generateStockData
    (fixedOffsetClock (23 * msPerHour + msPerHour / 2) (-5 * msPerHour)) "AAPL" <>
  generateStockData
    (fixedOffsetClock (24 * msPerHour + msPerHour / 2) (-5 * msPerHour)) "AAPL".
Proof.
  split; [| split].
  - intros E. apply generateStockData_first_date in E.
    vm_compute in E. discriminate.
  - vm_compute. reflexivity.
  - intros E. apply generateStockData_first_date in E.
    vm_compute in E. discriminate.
Qed.

(** C5.  For every series of finite prices, every RSI value of the pass is
    a real number in [0, 100]: at every index of the annotated series, and so
    at every point [calculateIndicators] returns. *)
Theorem rsi_in_range :
  forall data : list PricePoint,
    finite_prices data ->
    (forall k p, nth_error (dataWithIndicators data) k = Some p ->
                 exists r, rsi p = Finite r /\ 0 <= r <= 100) /\
    (forall p, In p (calculateIndicators data) ->
               exists r, rsi p = Finite r /\ 0 <= r <= 100).
Proof.
  intros data Hfin. split.
  - intros k p Hp. exact (rsi_range_at data Hfin k p Hp).
  - intros p Hp. rewrite calculateIndicators_skipn in Hp.
    apply In_skipn in Hp. apply In_nth_error in Hp. destruct Hp as [k Hk].
    exact (rsi_range_at data Hfin k p Hk).
Qed.

Lemma rsi_in_range_witness :
  finite_prices (flatSeries 100 16) /\
  forall p, In p (calculateIndicators (flatSeries 100 16)) ->
            exists r, rsi p = Finite r /\ 0 <= r <= 100.
Proof.
  split.
  - apply flatSeries_finite.
  - apply (rsi_in_range (flatSeries 100 16)). apply flatSeries_finite.
Defined.

(** C6.  The verdict is BUY exactly when the total score is above 0.2, SELL
    exactly when it is below -0.2 and NEUTRAL otherwise (a NaN score compares
    false on both sides and is NEUTRAL); 0.21 is BUY, 0.20 is NEUTRAL and
    -0.21 is SELL. *)
Theorem verdict_thresholds :
  (forall totalScore : num,
      (verdict totalScore = BUY <-> gt totalScore 0.2 = true) /\
      (verdict totalScore = SELL <-> lt totalScore (-0.2) = true) /\
      (verdict totalScore = NEUTRAL <->
         gt totalScore 0.2 = false /\ lt totalScore (-0.2) = false)) /\
  (forall t : R,
      (verdict t = BUY <-> 0.2 < t) /\
      (verdict t = SELL <-> t < -0.2) /\
      (verdict t = NEUTRAL <-> -0.2 <= t <= 0.2)) /\
  verdict 0.21 = BUY /\ verdict 0.20 = NEUTRAL /\ verdict (-0.21) = SELL.
Proof.
  split; [| split].
  - intros ts. unfold verdict, gt.
    destruct ts as [t| | |]; simpl; case_real;
      repeat split; intros; try discriminate; try lra; try tauto;
      try (destruct H; discriminate).
  - intros t. unfold verdict, gt. simpl. case_real;
      repeat split; intros; try discriminate; try lra.
  - unfold verdict, gt. simpl. case_real; try lra. repeat split.
Qed.

(** C7.  For every current and previous point (present or not, whatever their
    prices) and every finite total score, the position size
    [min(rawSize, 2.5) * 10] is a real number between 0 and 25. *)
Theorem positionSize_range :
  forall (current prev : option IndicatorPoint) (totalScore : R),
    positionSize current prev totalScore =
      mul (Math_min (rawSize current prev totalScore) 2.5) 10 /\
    exists p, positionSize current prev totalScore = Finite p /\ 0 <= p <= 25.
Proof.
  intros cur prev t. split; [reflexivity |].
  unfold positionSize.
  destruct (rawSize_nonneg cur prev t) as [q [Hq Hpos]]. rewrite Hq. simpl.
  eexists; split; [reflexivity |].
  pose proof (Rmin_r q 2.5). pose proof (Rmin_glb q 2.5 0 Hpos).
  lra.
Qed.

(** C8, as the code has it.  Against a numeric [sma200] the trend score is +1
    when the price is above it and -1 otherwise.  An [sma200] that
    [calculateIndicators] left at [null] is coerced to 0 by the comparison, so
    the score is +1 for a positive price; only when there is no point at all
    (both fields [undefined]) is the comparison false and the score -1. *)
Theorem trendScore_policy :
  (forall p : IndicatorPoint,
      trendScore (Some p) =
      match sma200 p with
      | VNum s => if gt (ip_price p) s then Finite 1 else Finite (-1)
      | VNull => if gt (ip_price p) (Finite 0) then Finite 1 else Finite (-1)
      | VUndefined => Finite (-1)
      end) /\
  trendScore None = Finite (-1) /\
  (forall x s : R,
      trendScore (Some (samplePoint x (VNum s))) =
      if Rlt_dec s x then Finite 1 else Finite (-1)) /\
  (forall x : R,
      trendScore (Some (samplePoint x VNull)) =
      if Rlt_dec 0 x then Finite 1 else Finite (-1)) /\
  trendScore (Some (samplePoint 110 (VNum 100))) = Finite 1 /\
  trendScore (Some (samplePoint 90 (VNum 100))) = Finite (-1).
Proof.
  repeat split.
  - intros p. unfold trendScore. simpl. destruct (sma200 p); reflexivity.
  - intros x s. unfold trendScore, gt. simpl. case_real; reflexivity.
  - intros x. unfold trendScore, gt. simpl. case_real; reflexivity.
  - unfold trendScore, gt. simpl. case_real; [reflexivity | lra].
  - unfold trendScore, gt. simpl. case_real; [lra | reflexivity].
Qed.

(** C8, counterexample: a point early in a series, whose [sma200] is absent
    ([null]), with price 110: the comparison [110 > null] is true and the
    trend score is +1, not -1.  This is the last point of a series of 30
    days at price 110. *)
Lemma trendScore_absent_sma200_counterexample :
  sma200 (samplePoint 110 VNull) = VNull /\
  trendScore (Some (samplePoint 110 VNull)) = Finite 1 /\
  trendScore (Some (samplePoint 110 VNull)) <> Finite (-1) /\
  trendScore (pointFromEnd (calculateIndicators (flatSeries 110 30)) 1)
  = Finite 1.
Proof.
  assert (H : trendScore (Some (samplePoint 110 VNull)) = Finite 1)
    by (apply (trendScore_null _ 110); [reflexivity | reflexivity | lra]).
  split; [reflexivity |]. split; [exact H |]. split.
  - rewrite H. intros E. inversion E. lra.
  - destruct (last_point_short 110 30 ltac:(lia)) as (p & -> & Hprice & Hsma).
    apply (trendScore_null p 110); [assumption | assumption | lra].
Qed.




(** C10.  At every index from 1 to 13 of the annotated series the RSI is 50,
    the default index 0 has: the bootstrap only accumulates there.  When the
    series has at most 200 points, the truncation keeps these points at the
    same indices. *)
Theorem rsi_default_before_bootstrap :
  forall (data : list PricePoint) (i : nat),
    (15 <= length data)%nat -> (1 <= i <= 13)%nat ->
    exists p p0,
      nth_error (dataWithIndicators data) i = Some p /\ rsi p = Finite 50 /\
      nth_error (dataWithIndicators data) 0 = Some p0 /\ rsi p0 = rsi p /\
      ((length data <= 200)%nat ->
       nth_error (calculateIndicators data) i = Some p).
Proof.
  intros data i Hlen Hi.
  destruct (point_at data i ltac:(lia)) as (st & day & _ & Hnth).
  destruct (point_at data 0 ltac:(lia)) as (st0 & day0 & _ & Hnth0).
  exists (snd (indicatorStep data st day (Z.of_nat i))),
         (snd (indicatorStep data st0 day0 (Z.of_nat 0))).
  assert (Hr : forall st' day' k, (k <= 13)%nat ->
              rsi (snd (indicatorStep data st' day' (Z.of_nat k))) = Finite 50).
  { intros st' day' k Hk. rewrite indicatorStep_point. simpl.
    apply rsiStep_default. unfold rsiPeriod. lia. }
  split; [exact Hnth |]. split; [apply Hr; lia |].
  split; [exact Hnth0 |]. split; [rewrite !Hr by lia; reflexivity |].
  intros Hshort. rewrite calculateIndicators_short by assumption.
  exact Hnth.
Qed.

Lemma rsi_default_before_bootstrap_witness :
  exists p p0,
    nth_error (dataWithIndicators (flatSeries 100 16)) 7 = Some p /\
    rsi p = Finite 50 /\
    nth_error (dataWithIndicators (flatSeries 100 16)) 0 = Some p0 /\
    rsi p0 = rsi p /\
    ((length (flatSeries 100 16) <= 200)%nat ->
     nth_error (calculateIndicators (flatSeries 100 16)) 7 = Some p).
Proof.
  apply (rsi_default_before_bootstrap (flatSeries 100 16) 7).
  - rewrite flatSeries_length. lia.
  - lia.
Defined.

(* ================================================================= *)
(** ** Further properties: the synthetic series *)

Lemma volumeAt_range (s : R) (i : Z) :
  exists v : Z, volumeAt (Finite s) i = Finite (IZR v) /\ (0 <= v <= 999999)%Z.
Proof.
  unfold volumeAt.
  replace (add (add (Finite s) (Finite (IZR i))) 1000)
    with (Finite (s + IZR i + 1000)) by reflexivity.
  destruct (seededRandom_unit (s + IZR i + 1000)) as (r & -> & Hr).
  cbn [mul Math_floor].
  exists (Zfloor (r * 1000000)). split; [reflexivity |].
  pose proof (Zfloor_bound (r * 1000000)) as [Hlo Hhi].
  split.
  - apply Zfloor_lub. simpl. nra.
  - assert (H : (Zfloor (r * 1000000) < 1000000)%Z) by (apply lt_IZR; nra).
    lia.
Qed.

Lemma generateLoop_volume clock seed trend n :
  forall i x p,
    In p (generateLoop clock seed trend n i x []) ->
    exists j, volume p = volumeAt seed j.
Proof.
  induction n as [| n IH]; intros i x p Hp.
  - contradiction.
  - rewrite generateLoop_S in Hp. destruct Hp as [<- | Hp].
    + exists i. reflexivity.
    + exact (IH _ _ _ Hp).
Qed.

Lemma Some_eq {A : Type} (a b : A) : Some a = Some b -> a = b.
Proof. congruence. Qed.

(** Two consecutive points of the loop: the later price is [nextPrice] of
    the earlier one. *)
Lemma generateLoop_step clock seed trend n :
  forall i x k p q,
    nth_error (generateLoop clock seed trend n i x []) k = Some p ->
    nth_error (generateLoop clock seed trend n i x []) (S k) = Some q ->
    price q = nextPrice seed trend (i + Z.of_nat k + 1) (price p).
Proof.
  induction n as [| n IH]; intros i x k p q Hp Hq.
  - destruct k; discriminate.
  - rewrite generateLoop_S in Hp, Hq. cbn [nth_error] in Hq.
    destruct k as [| k]; cbn [nth_error] in Hp.
    + apply Some_eq in Hp. rewrite <- Hp. cbn [price].
      destruct n as [| n]; [discriminate |].
      rewrite generateLoop_S in Hq. cbn [nth_error] in Hq.
      apply Some_eq in Hq. rewrite <- Hq. cbn [price].
      f_equal. lia.
    + rewrite (IH _ _ _ _ _ Hp Hq). f_equal. lia.
Qed.

(** One day of the walk moves the price by at most 1 % of it plus the
    largest drift, and never below the floor. *)
Lemma nextPrice_step (s t x : R) (i : Z) :
  Rabs t <= 0.1 -> 5 <= x ->
  exists b, nextPrice (Finite s) (Finite t) i (Finite x) = Finite b /\
            5 <= b /\ Rabs (b - x) <= 0.01 * x + 0.1.
Proof.
  intros Ht Hx. unfold nextPrice.
  replace (add (Finite s) (Finite (IZR i))) with (Finite (s + IZR i)) by reflexivity.
  destruct (seededRandom_unit (s + IZR i)) as (r & -> & Hr).
  cbn [add mul sub neg Math_max].
  eexists. split; [reflexivity |]. split; [apply Rmax_r |].
  assert (Ht' : -0.1 <= t <= 0.1)
    by (unfold Rabs in Ht; destruct (Rcase_abs t); lra).
  assert (Hc : - (0.01 * x) <= (r + - 0.5) * (x * 0.02) <= 0.01 * x) by nra.
  apply Rabs_le.
  unfold Rmax. destruct (Rle_dec _ _); lra.
Qed.

Lemma trend_bound (s : R) :
  exists t, mul (sub (seededRandom (add (Finite s) 1)) 0.5) 0.2 = Finite t /\
            Rabs t <= 0.1.
Proof.
  replace (add (Finite s) 1) with (Finite (s + 1)) by reflexivity.
  destruct (seededRandom_unit (s + 1)) as (r & -> & Hr).
  cbn [mul sub add neg]. eexists. split; [reflexivity |].
  apply Rabs_le. lra.
Qed.

Lemma startPrice_range (s : R) :
  exists x, add 100 (mul (seededRandom (Finite s)) 50) = Finite x /\
            100 <= x < 150.
Proof.
  destruct (seededRandom_unit s) as (r & -> & Hr).
  cbn [mul add]. eexists. split; [reflexivity |]. lra.
Qed.

Lemma tickerSeed_sum (ticker : string) :
  tickerSeed ticker = Finite (INR (charCodeSum ticker)).
Proof.
  unfold tickerSeed, charCodeSum.
  assert (H : forall l (s : R),
             fold_left (fun acc char => add acc (Finite (INR (nat_of_ascii char))))
                       l (Finite s) =
             Finite (s + INR (fold_right
                                (fun char acc => (nat_of_ascii char + acc)%nat)
                                0%nat l))).
  { induction l as [| c l IH]; intros s.
    - simpl. f_equal. lra.
    - cbn [fold_left fold_right add]. rewrite IH. f_equal.
      rewrite plus_INR. lra. }
  rewrite H. f_equal. lra.
Qed.

Lemma charCodeSum_perm (t1 t2 : string) :
  Permutation (list_ascii_of_string t1) (list_ascii_of_string t2) ->
  charCodeSum t1 = charCodeSum t2.
Proof.
  unfold charCodeSum. intros H.
  induction H as [| c l l' _ IH | c c' l | l l' l'' _ IH1 _ IH2]; simpl; lia.
Qed.

(** X1.  [seededRandom] returns a real number in [0, 1) for every finite
    seed, and NaN for a seed that is not finite. *)
Theorem seededRandom_range :
  (forall s : R, exists r, seededRandom (Finite s) = Finite r /\ 0 <= r < 1) /\
  seededRandom PosInf = NaN /\ seededRandom NegInf = NaN /\
  seededRandom NaN = NaN.
Proof.
  split; [exact seededRandom_unit |]. repeat split.
Qed.

(** X2.  Every volume of the synthetic series is an integer between 0 and
    999999. *)
Theorem generateStockData_volumes :
  forall (clock : Clock) (ticker : string) (k : nat),
    (k < 400)%nat ->
    exists (p : PricePoint) (v : Z),
      nth_error (generateStockData clock ticker) k = Some p /\
      volume p = Finite (IZR v) /\ (0 <= v <= 999999)%Z.
Proof.
  intros clock ticker k Hk.
  destruct (nth_error_exists (generateStockData clock ticker) k) as [p Hp].
  { rewrite generateStockData_length. exact Hk. }
  pose proof (nth_error_In _ _ Hp) as Hin.
  rewrite generateStockData_loop in Hin.
  apply generateLoop_volume in Hin. destruct Hin as [j Hj].
  destruct (tickerSeed_finite ticker) as [s Hs]. rewrite Hs in Hj.
  destruct (volumeAt_range s j) as (v & Hv & Hr).
  exists p, v. split; [exact Hp |]. split; [congruence | exact Hr].
Qed.

Lemma generateStockData_volumes_witness :
  exists (p : PricePoint) (v : Z),
    nth_error (generateStockData (utcClock 0) "AAPL") 7 = Some p /\
    volume p = Finite (IZR v) /\ (0 <= v <= 999999)%Z.
Proof.
  apply (generateStockData_volumes (utcClock 0) "AAPL" 7). lia.
Defined.

(** X3.  From one day of the synthetic series to the next the price moves by
    at most 1 % of the earlier price plus 0.1 (the largest drift). *)
Theorem generateStockData_daily_move :
  forall (clock : Clock) (ticker : string) (k : nat),
    (S k < 400)%nat ->
    exists p q a b,
      nth_error (generateStockData clock ticker) k = Some p /\
      nth_error (generateStockData clock ticker) (S k) = Some q /\
      price p = Finite a /\ price q = Finite b /\
      Rabs (b - a) <= 0.01 * a + 0.1.
Proof.
  intros clock ticker k Hk. rewrite generateStockData_loop.
  destruct (tickerSeed_finite ticker) as [s ->].
  destruct (trend_bound s) as (t & -> & Ht).
  destruct (startPrice_range s) as (x0 & -> & Hx0).
  assert (Hlen : Z.to_nat totalPoints = 400%nat) by reflexivity.
  destruct (nth_error_exists
              (generateLoop clock s t (Z.to_nat totalPoints) 0 x0 []) k)
    as [p Hp]; [rewrite generateLoop_length; lia |].
  destruct (nth_error_exists
              (generateLoop clock s t (Z.to_nat totalPoints) 0 x0 []) (S k))
    as [q Hq]; [rewrite generateLoop_length; lia |].
  destruct (generateLoop_prices _ _ _ _ _ _ _ (nth_error_In _ _ Hp))
    as (a & Ha & Ha5).
  pose proof (generateLoop_step _ _ _ _ _ _ _ _ _ Hp Hq) as Hstep.
  rewrite Ha in Hstep.
  destruct (nextPrice_step s t a (0 + Z.of_nat k + 1) Ht Ha5) as (b & Hb & _ & Hmove).
  exists p, q, a, b. rewrite Hstep. auto.
Qed.

Lemma generateStockData_daily_move_witness :
  exists p q a b,
    nth_error (generateStockData (utcClock 0) "AAPL") 0 = Some p /\
    nth_error (generateStockData (utcClock 0) "AAPL") 1 = Some q /\
    price p = Finite a /\ price q = Finite b /\
    Rabs (b - a) <= 0.01 * a + 0.1.
Proof.
  apply (generateStockData_daily_move (utcClock 0) "AAPL" 0). lia.
Defined.

(** X4.  The first price of the synthetic series lies between 98.9 and
    151.6: the start price, in [100, 150), moved by one day. *)
Theorem generateStockData_first_price :
  forall (clock : Clock) (ticker : string),
    exists p a,
      nth_error (generateStockData clock ticker) 0 = Some p /\
      price p = Finite a /\ 98.9 <= a <= 151.6.
Proof.
  intros clock ticker. rewrite generateStockData_loop.
  destruct (tickerSeed_finite ticker) as [s ->].
  destruct (trend_bound s) as (t & -> & Ht).
  destruct (startPrice_range s) as (x0 & -> & Hx0).
  change (Z.to_nat totalPoints) with (S 399).
  rewrite generateLoop_S. cbn [nth_error].
  destruct (nextPrice_step s t x0 0 Ht ltac:(lra)) as (b & Hb & _ & Hmove).
  eexists. exists b. split; [reflexivity |]. split; [exact Hb |].
  assert (H : - (0.01 * x0 + 0.1) <= b - x0 <= 0.01 * x0 + 0.1)
    by (unfold Rabs in Hmove; destruct (Rcase_abs (b - x0)); lra).
  lra.
Qed.

(** X5.  The date of the point of index [k].  In a zone at a fixed offset
    from UTC it is the UTC day of the call moved back by [400 - k] days, so
    the 400 dates are consecutive days and the last one is the day before
    the UTC day of the call.  In any zone whose offset stays within a day of
    UTC it is the local day of the call moved back by [400 - k] days, or the
    day before or after that one. *)
Theorem generateStockData_calendar :
  forall (clock : Clock) (ticker : string) (k : nat),
    (k < 400)%nat ->
    exists p,
      nth_error (generateStockData clock ticker) k = Some p /\
      (forall off,
          fixed_offset clock off ->
          date p = (Day (timeValue clock) - 400 + Z.of_nat k)%Z) /\
      (offsets_within_a_day clock ->
       (Day (LocalTime clock (timeValue clock)) - 400 + Z.of_nat k - 1
        <= date p
        <= Day (LocalTime clock (timeValue clock)) - 400 + Z.of_nat k + 1)%Z).
Proof.
  intros clock ticker k Hk.
  destruct (nth_error_exists (generateStockData clock ticker) k) as [p Hp].
  { rewrite generateStockData_length. exact Hk. }
  exists p. split; [exact Hp |].
  rewrite (generateStockData_date clock ticker k p Hp). split.
  - intros off Hoff. rewrite (dateAt_fixed_offset clock off _ Hoff).
    unfold totalPoints. lia.
  - intros Hday. pose proof (dateAt_local_day clock (Z.of_nat k) Hday) as H.
    unfold totalPoints in H. lia.
Qed.

Lemma generateStockData_calendar_witness :
  exists p,
    nth_error (generateStockData (utcClock 0) "AAPL") 399 = Some p /\
    date p = (-1)%Z /\
    (Day (LocalTime (utcClock 0) (timeValue (utcClock 0))) - 2 <= date p
     <= Day (LocalTime (utcClock 0) (timeValue (utcClock 0))))%Z.
Proof.
  destruct (generateStockData_calendar (utcClock 0) "AAPL" 399 ltac:(lia))
    as (p & Hp & Hfixed & Hlocal).
  exists p. split; [exact Hp | split].
  - rewrite (Hfixed 0%Z (fixedOffsetClock_fixed 0 0)). vm_compute. reflexivity.
  - assert (Hday : offsets_within_a_day (utcClock 0))
      by (intros t; cbn [utcClock fixedOffsetClock LocalTZA]; unfold msPerDay; lia).
    specialize (Hlocal Hday). cbn [Z.of_nat Pos.of_succ_nat] in Hlocal. lia.
Defined.

(** X6.  The synthetic series depends on the ticker only through the sum of
    its character codes: two tickers with the same sum (anagrams, or AD and
    BC) get the same series. *)
Theorem generateStockData_collision :
  forall (clock : Clock) (t1 t2 : string),
    charCodeSum t1 = charCodeSum t2 ->
    generateStockData clock t1 = generateStockData clock t2.
Proof.
  intros clock t1 t2 H. rewrite !generateStockData_loop.
  rewrite !tickerSeed_sum. rewrite H. reflexivity.
Qed.

Lemma generateStockData_collision_witness :
  charCodeSum "AD" = charCodeSum "BC" /\
  generateStockData (utcClock 0) "AD" = generateStockData (utcClock 0) "BC".
Proof.
  split; [reflexivity |].
  apply (generateStockData_collision (utcClock 0) "AD" "BC"). reflexivity.
Defined.

(* ================================================================= *)
(** ** Further properties: the indicator pass *)

Lemma mapIndicators_fields data rest :
  forall i st,
    map ip_date (mapIndicators data rest i st) = map date rest /\
    map ip_price (mapIndicators data rest i st) = map price rest /\
    map ip_volume (mapIndicators data rest i st) = map volume rest.
Proof.
  induction rest as [| day rest IH]; intros i st.
  - repeat split.
  - cbn [mapIndicators].
    pose proof (indicatorStep_point data st day i) as Hpt.
    destruct (indicatorStep data st day i) as [st' pt]. cbn [snd] in Hpt.
    destruct (IH (i + 1)%Z st') as (Hd & Hp & Hv).
    cbn [map]. rewrite Hd, Hp, Hv, Hpt. repeat split.
Qed.

(** X7.  [calculateIndicators] returns one point for each of the last 200
    input points (all of them when there are fewer), in the input order and
    with the input's date, price and volume; it returns the empty series for
    the empty series. *)
Theorem calculateIndicators_shape :
  forall data : list PricePoint,
    length (calculateIndicators data) = Nat.min (length data) 200 /\
    map ip_date (calculateIndicators data)
    = map date (skipn (length data - 200) data) /\
    map ip_price (calculateIndicators data)
    = map price (skipn (length data - 200) data) /\
    map ip_volume (calculateIndicators data)
    = map volume (skipn (length data - 200) data) /\
    calculateIndicators [] = [].
Proof.
  intros data. split; [apply calculateIndicators_length |].
  rewrite calculateIndicators_skipn.
  destruct (mapIndicators_fields data data 0%Z (Finite 0, Finite 0))
    as (Hd & Hp & Hv).
  unfold dataWithIndicators.
  rewrite <- !skipn_map, Hd, Hp, Hv. repeat split.
Qed.

(** X8.  In the returned series a moving average is [null] exactly at the
    points whose index in the input is below its period minus one: [sma50]
    below input index 49 and [sma200] below input index 199. *)
Theorem sma_availability :
  forall (data : list PricePoint) (j : nat),
    (j < length (calculateIndicators data))%nat ->
    exists p,
      nth_error (calculateIndicators data) j = Some p /\
      (sma50 p = VNull <-> (length data - 200 + j < 49)%nat) /\
      (sma200 p = VNull <-> (length data - 200 + j < 199)%nat).
Proof.
  intros data j Hj.
  rewrite calculateIndicators_length in Hj.
  destruct (point_at data (length data - 200 + j) ltac:(lia))
    as (st & day & _ & Hnth).
  eexists. split.
  - rewrite calculateIndicators_skipn, nth_error_skipn. exact Hnth.
  - rewrite indicatorStep_point. cbn [sma50 sma200].
    unfold smaAt, period50, period200.
    split.
    + destruct (50 - 1 <=? Z.of_nat (length data - 200 + j))%Z eqn:E;
        [apply Z.leb_le in E | apply Z.leb_gt in E];
        split; intros H; try reflexivity; try discriminate; lia.
    + destruct (200 - 1 <=? Z.of_nat (length data - 200 + j))%Z eqn:E;
        [apply Z.leb_le in E | apply Z.leb_gt in E];
        split; intros H; try reflexivity; try discriminate; lia.
Qed.

Lemma sma_availability_witness :
  exists p,
    nth_error (calculateIndicators (flatSeries 100 250)) 0 = Some p /\
    (sma50 p = VNull <->
     (length (flatSeries 100 250) - 200 + 0 < 49)%nat) /\
    (sma200 p = VNull <->
     (length (flatSeries 100 250) - 200 + 0 < 199)%nat).
Proof.
  apply (sma_availability (flatSeries 100 250) 0).
  rewrite calculateIndicators_length, flatSeries_length. simpl. lia.
Defined.

Lemma fold_prices_within (lo hi : R) sl :
  prices_within lo hi sl ->
  forall s : R,
    exists r,
      fold_left (fun a b => add a (price b)) sl (Finite s) = Finite r /\
      s + INR (length sl) * lo <= r <= s + INR (length sl) * hi.
Proof.
  induction sl as [| d sl IH]; intros Hw s.
  - exists s. split; [reflexivity |]. simpl. lra.
  - inversion Hw as [| ? ? (x & Hx & Hxr) Hw']; subst.
    cbn [fold_left]. rewrite Hx. cbn [add].
    destruct (IH Hw' (s + x)) as (r & Hr & Hrr).
    exists r. split; [exact Hr |].
    cbn [length]. rewrite S_INR. lra.
Qed.

(** A filled moving average lies between the bounds of the prices. *)
Lemma smaAt_within (lo hi : R) data (period : Z) (k : nat) :
  prices_within lo hi data ->
  (0 < period)%Z -> (period - 1 <= Z.of_nat k)%Z -> (k < length data)%nat ->
  exists a, smaAt data period (Z.of_nat k) = VNum (Finite a) /\ lo <= a <= hi.
Proof.
  intros Hw Hper Hk Hlen. unfold smaAt, sumPrices.
  replace (period - 1 <=? Z.of_nat k)%Z with true by lia.
  set (sl := slice data (Z.of_nat k - period + 1) (Z.of_nat k + 1)).
  assert (Hsl : prices_within lo hi sl) by (apply Forall_slice; exact Hw).
  assert (Hn : INR (length sl) = IZR period).
  { unfold sl. rewrite slice_length by lia.
    rewrite INR_IZR_INZ. f_equal. lia. }
  destruct (fold_prices_within lo hi sl Hsl 0) as (s & -> & Hs).
  rewrite Hn in Hs.
  assert (Hp : 0 < IZR period) by (apply IZR_lt; lia).
  rewrite div_Finite by lra.
  eexists. split; [reflexivity |].
  assert (E : s / IZR period * IZR period = s) by (field; lra).
  split; nra.
Qed.

(** X9.  When every price of the input is a real number between [lo] and
    [hi], with [lo] positive, every moving average that is present in the
    returned series is a real number between [lo] and [hi], up to one part
    in a billion.  (In the exact arithmetic of the model the average lies
    between [lo] and [hi]; the margin leaves room for the rounding of the
    200 additions of the source.) *)
Theorem sma_within_price_range :
  forall (lo hi : R) (data : list PricePoint) (j : nat),
    0 < lo ->
    prices_within lo hi data ->
    (j < length (calculateIndicators data))%nat ->
    exists p,
      nth_error (calculateIndicators data) j = Some p /\
      (sma50 p = VNull \/
       exists a, sma50 p = VNum (Finite a) /\
                 lo * (1 - 0.000000001) <= a <= hi * (1 + 0.000000001)) /\
      (sma200 p = VNull \/
       exists a, sma200 p = VNum (Finite a) /\
                 lo * (1 - 0.000000001) <= a <= hi * (1 + 0.000000001)).
Proof.
  intros lo hi data j Hlo Hw Hj.
  rewrite calculateIndicators_length in Hj.
  set (k := (length data - 200 + j)%nat).
  assert (Hlen : (k < length data)%nat) by (unfold k; lia).
  destruct (point_at data k Hlen) as (st & day & _ & Hnth).
  eexists. split.
  { rewrite calculateIndicators_skipn, nth_error_skipn. exact Hnth. }
  rewrite indicatorStep_point. cbn [sma50 sma200]. split.
  - destruct (Z.le_gt_cases (period50 - 1) (Z.of_nat k)) as [H | H].
    + right.
      destruct (smaAt_within lo hi data period50 k Hw)
        as (a & Ha & Hrange); [reflexivity | exact H | exact Hlen |].
      exists a. split; [exact Ha | lra].
    + left. apply smaAt_early. lia.
  - destruct (Z.le_gt_cases (period200 - 1) (Z.of_nat k)) as [H | H].
    + right.
      destruct (smaAt_within lo hi data period200 k Hw)
        as (a & Ha & Hrange); [reflexivity | exact H | exact Hlen |].
      exists a. split; [exact Ha | lra].
    + left. apply smaAt_early. lia.
Qed.

Lemma flatSeries_within c n : prices_within c c (flatSeries c n).
Proof.
  unfold prices_within. eapply Forall_impl; [| apply (flatSeries_flat c n)].
  intros d Hd. exists c. split; [exact Hd | lra].
Qed.

Lemma sma_within_price_range_witness :
  exists p,
    nth_error (calculateIndicators (flatSeries 100 60)) 55 = Some p /\
    (sma50 p = VNull \/
     exists a, sma50 p = VNum (Finite a) /\
               100 * (1 - 0.000000001) <= a <= 100 * (1 + 0.000000001)) /\
    (sma200 p = VNull \/
     exists a, sma200 p = VNum (Finite a) /\
               100 * (1 - 0.000000001) <= a <= 100 * (1 + 0.000000001)).
Proof.
  apply (sma_within_price_range 100 100 (flatSeries 100 60) 55).
  - lra.
  - apply flatSeries_within.
  - rewrite calculateIndicators_length, flatSeries_length. simpl. lia.
Defined.

(** *** Bollinger bands and the mean-reversion signal *)

Lemma In_slice_nth {A : Type} (l : list A) (a b : Z) (k : nat) (x : A) :
  nth_error l k = Some x -> (0 <= a <= Z.of_nat k)%Z -> (Z.of_nat k < b)%Z ->
  In x (slice l a b).
Proof.
  intros Hx Ha Hb.
  assert (Hk : (k < length l)%nat) by (apply nth_error_Some; congruence).
  unfold slice.
  replace (a <? 0)%Z with false by lia.
  replace (b <? 0)%Z with false by lia.
  apply (nth_error_In _ (k - Z.to_nat a)).
  rewrite nth_error_firstn.
  replace (k - Z.to_nat a <?
           Z.to_nat (Z.min b (Z.of_nat (length l)) - Z.min a (Z.of_nat (length l))))%nat
    with true by (symmetry; apply Nat.ltb_lt; lia).
  rewrite nth_error_skipn.
  replace (Z.to_nat (Z.min a (Z.of_nat (length l))) + (k - Z.to_nat a))%nat
    with k by lia.
  exact Hx.
Qed.

(** The sum of the squared deviations is at least each of its terms. *)
Lemma fold_squares_bound sl (m : R) :
  finite_prices sl ->
  forall s : R, 0 <= s ->
    exists r,
      fold_left (fun a b => add a (Math_pow (sub (price b) (Finite m)) 2))
                sl (Finite s) = Finite r /\
      s <= r /\
      forall d x, In d sl -> price d = Finite x ->
                  s + (x - m) * (x - m) <= r.
Proof.
  induction sl as [| d sl IH]; intros Hfin s Hs.
  - exists s. split; [reflexivity |]. split; [lra |]. intros d x [].
  - inversion Hfin as [| ? ? [y Hy] Hfin']; subst.
    cbn [fold_left]. rewrite Hy. cbn [sub neg add Math_pow pow].
    assert (Hsq : 0 <= (y + - m) * ((y + - m) * 1)).
    { pose proof (Rle_0_sqr (y + - m)) as H. unfold Rsqr in H. lra. }
    destruct (IH Hfin' (s + (y + - m) * ((y + - m) * 1)) ltac:(lra))
      as (r & Hr & Hsr & Hterms).
    exists r. split; [exact Hr |]. split; [lra |].
    intros d' x [<- | Hin] Hx.
    + rewrite Hy in Hx. injection Hx as <-. lra.
    + specialize (Hterms d' x Hin Hx). lra.
Qed.

(** The bands at a point of a series of finite prices, from index 20 on:
    the deviation [sd] is 0 only when the price is the mean. *)
Lemma bollingerAt_bands data day (k : nat) (x : R) :
  finite_prices data -> nth_error data k = Some day -> price day = Finite x ->
  (20 <= k)%nat ->
  exists m sd : R,
    0 <= sd /\ (sd = 0 -> x = m) /\
    bollingerAt data day (Z.of_nat k) =
    (VNum (Finite (m + 2 * sd)),
     VNum (Finite (m + - (2 * sd))),
     Finite ((x + - m) / (if Req_dec_T sd 0 then 1 else sd))).
Proof.
  intros Hfin Hday Hx Hk. unfold bollingerAt.
  replace (20 <=? Z.of_nat k)%Z with true by lia.
  set (sl := slice data (Z.of_nat k - 19) (Z.of_nat k + 1)).
  assert (Hsl : finite_prices sl) by (apply Forall_slice; exact Hfin).
  assert (Hin : In day sl) by (apply (In_slice_nth data _ _ k); [exact Hday | lia | lia]).
  destruct (fold_prices_finite _ Hsl 0) as [s Hs]. rewrite Hs.
  rewrite div_Finite by lra.
  destruct (fold_squares_bound _ (s / 20) Hsl 0 (Rle_refl 0))
    as (v & Hv & Hv0 & Hterms).
  rewrite Hv. rewrite div_Finite by lra.
  assert (Hvar : 0 <= v / 20) by (apply Rle_mult_inv_pos; lra).
  rewrite sqrt_Finite by assumption.
  exists (s / 20), (sqrt (v / 20)). split; [apply sqrt_pos |]. split.
  - intros Hsd. apply sqrt_eq_0 in Hsd; [| exact Hvar].
    assert (Hvz : v = 0) by lra.
    specialize (Hterms day x Hin Hx).
    assert (Hz : (x - s / 20) * (x - s / 20) <= 0) by lra.
    pose proof (Rle_0_sqr (x - s / 20)) as Hsq. unfold Rsqr in Hsq.
    assert (Hsq0 : (x - s / 20) * (x - s / 20) = 0) by lra.
    apply Rmult_integral in Hsq0. destruct Hsq0; lra.
  - rewrite Hx.
    destruct (Req_dec_T (sqrt (v / 20)) 0) as [E | E].
    + rewrite E. rewrite or_else_zero. simpl.
      destruct (Req_dec_T 1 0); [lra | reflexivity].
    + rewrite or_else_nonzero by assumption. simpl.
      destruct (Req_dec_T (sqrt (v / 20)) 0); [contradiction | reflexivity].
Qed.

Lemma revScore_Finite (p : IndicatorPoint) (z : R) :
  zScore p = Finite z ->
  (revScore (Some p) = Finite (-1) <-> 2 < z) /\
  (revScore (Some p) = Finite 1 <-> z < -2).
Proof.
  intros Hz. unfold revScore, field, zScore_field, gt. rewrite Hz.
  cbn [toNumber lt].
  destruct (Rlt_dec z (-2)), (Rlt_dec 2 z); split; split; intros H;
    try reflexivity; try lra;
    try (injection H as H; lra); try discriminate.
Qed.

Lemma revScore_Finite_zero (p : IndicatorPoint) (z : R) :
  zScore p = Finite z -> -2 <= z <= 2 -> revScore (Some p) = Finite 0.
Proof.
  intros Hz Hr. unfold revScore, field, zScore_field, gt. rewrite Hz.
  cbn [toNumber lt].
  destruct (Rlt_dec z (-2)), (Rlt_dec 2 z); try reflexivity; lra.
Qed.

(** X10.  From input index 20 on, on finite prices, the lower band is not
    above the upper band, and the mean-reversion signal fires only with the
    price on or outside a band: a z-score above 2 (score -1) puts the price
    on or above the upper band, a z-score below -2 (score +1) puts it on or
    below the lower band, and a price strictly between the bands scores 0.
    Conversely a price above the upper band has a z-score of 2 at least, and
    a price below the lower band a z-score of -2 at most. *)
Theorem bollinger_bands_signal :
  forall (data : list PricePoint) (k : nat),
    finite_prices data -> (20 <= k < length data)%nat ->
    exists p u l z x,
      nth_error (dataWithIndicators data) k = Some p /\
      bbUpper p = VNum (Finite u) /\ bbLower p = VNum (Finite l) /\
      zScore p = Finite z /\ ip_price p = Finite x /\
      l <= u /\
      (2 < z -> u <= x) /\ (u < x -> 2 <= z) /\
      (z < -2 -> x <= l) /\ (x < l -> z <= -2) /\
      (revScore (Some p) = Finite (-1) -> u <= x) /\
      (revScore (Some p) = Finite 1 -> x <= l) /\
      (l < x < u -> revScore (Some p) = Finite 0).
Proof.
  intros data k Hfin Hk.
  destruct (point_at data k ltac:(lia)) as (st & day & Hday & Hnth).
  destruct (finite_price_at data Hfin k day Hday) as [x Hx].
  destruct (bollingerAt_bands data day k x Hfin Hday Hx ltac:(lia))
    as (m & sd & Hsd & Hzero & Hb).
  set (z := (x + - m) / (if Req_dec_T sd 0 then 1 else sd)).
  assert (Hz : (2 < z <-> m + 2 * sd < x) /\ (z < -2 <-> x < m + - (2 * sd))).
  { unfold z. destruct (Req_dec_T sd 0) as [E | E].
    - specialize (Hzero E). subst x. rewrite E.
      replace ((m + - m) / 1) with 0 by field. split; split; lra.
    - assert (Hpos : 0 < sd) by lra.
      assert (Ez : (x + - m) / sd * sd = x + - m) by (field; lra).
      split; split; intros H; nra. }
  pose proof (indicatorStep_point data st day (Z.of_nat k)) as Hpt.
  set (pt := snd (indicatorStep data st day (Z.of_nat k))) in *.
  assert (Hu : bbUpper pt = VNum (Finite (m + 2 * sd)))
    by (rewrite Hpt; cbn [bbUpper]; rewrite Hb; reflexivity).
  assert (Hl : bbLower pt = VNum (Finite (m + - (2 * sd))))
    by (rewrite Hpt; cbn [bbLower]; rewrite Hb; reflexivity).
  assert (Hzs : zScore pt = Finite z)
    by (rewrite Hpt; cbn [zScore]; rewrite Hb; reflexivity).
  assert (Hpr : ip_price pt = Finite x)
    by (rewrite Hpt; cbn [ip_price]; exact Hx).
  destruct (revScore_Finite pt z Hzs) as [Hr1 Hr2].
  destruct Hz as [Hz1 Hz2].
  exists pt, (m + 2 * sd), (m + - (2 * sd)), z, x.
  split; [exact Hnth |]. split; [exact Hu |]. split; [exact Hl |].
  split; [exact Hzs |]. split; [exact Hpr |]. split; [lra |].
  split; [intros H; apply Hz1 in H; lra |].
  split; [intros H; apply Hz1 in H; lra |].
  split; [intros H; apply Hz2 in H; lra |].
  split; [intros H; apply Hz2 in H; lra |].
  split; [intros H; apply Hr1, Hz1 in H; lra |].
  split; [intros H; apply Hr2, Hz2 in H; lra |].
  intros [Hlo Hhi]. apply (revScore_Finite_zero pt z Hzs).
  split.
  - destruct (Rle_or_lt (-2) z) as [H | H]; [exact H | apply Hz2 in H; lra].
  - destruct (Rle_or_lt z 2) as [H | H]; [exact H | apply Hz1 in H; lra].
Qed.

Lemma bollinger_bands_signal_witness :
  exists p u l z x,
    nth_error (dataWithIndicators (flatSeries 100 30)) 25 = Some p /\
    bbUpper p = VNum (Finite u) /\ bbLower p = VNum (Finite l) /\
    zScore p = Finite z /\ ip_price p = Finite x /\
    l <= u /\
    (2 < z -> u <= x) /\ (u < x -> 2 <= z) /\
    (z < -2 -> x <= l) /\ (x < l -> z <= -2) /\
    (revScore (Some p) = Finite (-1) -> u <= x) /\
    (revScore (Some p) = Finite 1 -> x <= l) /\
    (l < x < u -> revScore (Some p) = Finite 0).
Proof.
  apply (bollinger_bands_signal (flatSeries 100 30) 25).
  - apply flatSeries_finite.
  - rewrite flatSeries_length. lia.
Defined.

(** *** The rolling RSI in closed form *)

(** With total gain [g] and total loss [l] over the window: the usual
    [100 g / (g + l)] when there is a loss, and [100 g / (g + 14)] when
    there is none (the average loss 0 is replaced by 1). *)
Lemma rsiFormula_closed (g l : R) :
  0 <= g -> 0 <= l ->
  rsiFormula (div (Finite g) (IZR rsiPeriod)) (div (Finite l) (IZR rsiPeriod)) =
  Finite (if Req_dec_T l 0 then 100 * g / (g + 14) else 100 * g / (g + l)).
Proof.
  intros Hg Hl. unfold rsiPeriod, rsiFormula.
  rewrite !div_Finite by lra.
  destruct (Req_dec_T l 0) as [E | E].
  - subst l. replace (0 / 14) with 0 by field. rewrite or_else_zero.
    rewrite div_Finite by lra. cbn [add].
    rewrite div_Finite by lra. cbn [sub neg add].
    f_equal. field. lra.
  - assert (Hl14 : 0 < l / 14) by lra.
    rewrite or_else_nonzero by lra.
    rewrite div_Finite by lra. cbn [add].
    assert (Hq : 0 <= g / 14 / (l / 14)).
    { apply Rle_mult_inv_pos; lra. }
    rewrite div_Finite by lra. cbn [sub neg add].
    f_equal. field. lra.
Qed.

(** X11.  After the bootstrap, on finite prices, the RSI of a point is a
    function of the total gain [g] and the total loss [l] over the trailing
    14 prices: [100 g / (g + l)] when the window has a loss, and
    [100 g / (g + 14)] when it has none; it is below 100 in both cases. *)
Theorem rsi_rolling_closed_form :
  forall (data : list PricePoint) (k : nat),
    finite_prices data -> (14 < k < length data)%nat ->
    exists p g l,
      nth_error (dataWithIndicators data) k = Some p /\
      windowGainLoss
        (slice data (Z.of_nat k - rsiPeriod + 1) (Z.of_nat k + 1))
        (Finite 0) (Finite 0) = (Finite g, Finite l) /\
      0 <= g /\ 0 <= l /\
      rsi p =
        Finite (if Req_dec_T l 0 then 100 * g / (g + 14) else 100 * g / (g + l)) /\
      (if Req_dec_T l 0 then 100 * g / (g + 14) else 100 * g / (g + l)) < 100.
Proof.
  intros data k Hfin Hk.
  destruct (point_at data k ltac:(lia)) as (st & day & Hday & Hnth).
  pose proof (Forall_slice _ data (Z.of_nat k - rsiPeriod + 1)
                           (Z.of_nat k + 1) Hfin) as Hsl.
  destruct (windowGainLoss_nonneg _ Hsl (Finite 0) (Finite 0)
              nonneg_finite_0 nonneg_finite_0) as [Hg Hl].
  destruct (windowGainLoss
              (slice data (Z.of_nat k - rsiPeriod + 1) (Z.of_nat k + 1))
              (Finite 0) (Finite 0)) as [gn ln] eqn:Ewin.
  cbn [fst snd] in Hg, Hl.
  destruct Hg as (g & -> & Hg). destruct Hl as (l & -> & Hl).
  exists (snd (indicatorStep data st day (Z.of_nat k))), g, l.
  split; [exact Hnth |]. split; [reflexivity |].
  split; [exact Hg |]. split; [exact Hl |]. split.
  - rewrite indicatorStep_point. cbn [rsi].
    unfold rsiStep. destruct st as [gains losses].
    replace (0 <? Z.of_nat k)%Z with true by lia.
    replace (Z.of_nat k <=? rsiPeriod)%Z with false by (unfold rsiPeriod; lia).
    change (Finite 0) with (Finite 0) in Ewin. rewrite Ewin. cbn [snd].
    apply rsiFormula_closed; assumption.
  - destruct (Req_dec_T l 0) as [E | E].
    + assert (H : 100 * g / (g + 14) * (g + 14) = 100 * g) by (field; lra).
      nra.
    + assert (H : 100 * g / (g + l) * (g + l) = 100 * g) by (field; lra).
      nra.
Qed.

Lemma rsi_rolling_closed_form_witness :
  exists p g l,
    nth_error (dataWithIndicators (flatSeries 100 30)) 20 = Some p /\
    windowGainLoss
      (slice (flatSeries 100 30) (Z.of_nat 20 - rsiPeriod + 1) (Z.of_nat 20 + 1))
      (Finite 0) (Finite 0) = (Finite g, Finite l) /\
    0 <= g /\ 0 <= l /\
    rsi p =
      Finite (if Req_dec_T l 0 then 100 * g / (g + 14) else 100 * g / (g + l)) /\
    (if Req_dec_T l 0 then 100 * g / (g + 14) else 100 * g / (g + l)) < 100.
Proof.
  apply (rsi_rolling_closed_form (flatSeries 100 30) 20).
  - apply flatSeries_finite.
  - rewrite flatSeries_length. lia.
Defined.

(** *** Series without a losing day *)

Lemma sub_self (c : R) : sub (Finite c) (Finite c) = Finite 0.
Proof. cbn. f_equal. ring. Qed.

Lemma gt_zero_zero : gt (Finite 0) (Finite 0) = false.
Proof. apply gt_Finite_false. lra. Qed.

Lemma sub_zero_zero : sub (Finite 0) (Finite 0) = Finite 0.
Proof. apply sub_self. Qed.

Lemma windowGainLoss_flat c sl :
  flat_prices c sl ->
  forall g l : R, windowGainLoss sl (Finite g) (Finite l) = (Finite g, Finite l).
Proof.
  induction sl as [| a sl IH]; intros Hflat g l.
  - reflexivity.
  - destruct sl as [| b sl'].
    + reflexivity.
    + inversion Hflat as [| ? ? Ha Hflat']; subst.
      pose proof Hflat' as Hflat''.
      inversion Hflat'' as [| ? ? Hb _]; subst.
      change (windowGainLoss (a :: b :: sl') (Finite g) (Finite l))
        with (let d := sub (price b) (price a) in
              if gt d 0 then windowGainLoss (b :: sl') (add (Finite g) d) (Finite l)
              else windowGainLoss (b :: sl') (Finite g) (sub (Finite l) d)).
      cbv zeta. rewrite Ha, Hb, sub_self, gt_zero_zero.
      replace (sub (Finite l) (Finite 0)) with (Finite l)
        by (cbn; f_equal; ring).
      apply IH. assumption.
Qed.

Lemma flatSeries_priceAt c n k :
  (k < n)%nat -> priceAt (flatSeries c n) (Z.of_nat k) = Finite c.
Proof.
  intros Hk. unfold priceAt. rewrite Nat2Z.id.
  destruct (nth_error (flatSeries c n) k) as [d |] eqn:E.
  - exact (flatSeries_price c n k d E).
  - apply nth_error_None in E. rewrite flatSeries_length in E. lia.
Qed.

(** On a flat series the accumulators of the bootstrap stay at 0, and the
    RSI of a step from index 14 on is 0. *)
Lemma rsiStep_flat c n k day :
  nth_error (flatSeries c n) k = Some day ->
  fst (rsiStep (flatSeries c n) (Finite 0, Finite 0) day (Z.of_nat k))
  = (Finite 0, Finite 0) /\
  ((14 <= k)%nat ->
   snd (rsiStep (flatSeries c n) (Finite 0, Finite 0) day (Z.of_nat k))
   = Finite 0).
Proof.
  intros Hday.
  assert (Hk : (k < n)%nat).
  { rewrite <- (flatSeries_length c n). apply nth_error_Some. congruence. }
  assert (Hrsi0 : rsiFormula (div (Finite 0) (IZR rsiPeriod))
                             (div (Finite 0) (IZR rsiPeriod)) = Finite 0).
  { rewrite rsiFormula_closed by lra.
    destruct (Req_dec_T 0 0); [| lra]. f_equal. field. }
  unfold rsiStep.
  destruct (0 <? Z.of_nat k)%Z eqn:Hpos; [| split; [reflexivity | lia]].
  apply Z.ltb_lt in Hpos.
  destruct (Z.of_nat k <=? rsiPeriod)%Z eqn:Hboot.
  - rewrite (flatSeries_price c n k day Hday).
    replace (Z.of_nat k - 1)%Z with (Z.of_nat (k - 1)) by lia.
    rewrite flatSeries_priceAt by lia.
    rewrite sub_self, gt_zero_zero, sub_zero_zero.
    destruct (Z.of_nat k =? rsiPeriod)%Z eqn:E14.
    + split; [reflexivity |]. intros _. exact Hrsi0.
    + split; [reflexivity |]. intros H14.
      apply Z.leb_le in Hboot. apply Z.eqb_neq in E14. unfold rsiPeriod in *. lia.
  - rewrite (windowGainLoss_flat c) by (apply Forall_slice, flatSeries_flat).
    split; [reflexivity |]. intros _. exact Hrsi0.
Qed.

(** X12.  On a series whose price never changes, the RSI is 0 at every
    index from 14 on (not the neutral 50): without a gain the formula gives
    [100 - 100 / 1]. *)
Theorem rsi_flat_series_zero :
  forall (c : R) (n k : nat),
    (14 <= k < n)%nat ->
    exists p,
      nth_error (dataWithIndicators (flatSeries c n)) k = Some p /\
      rsi p = Finite 0.
Proof.
  intros c n k Hk.
  destruct (dataWithIndicators_nth (flatSeries c n)
              (fun st => st = (Finite 0, Finite 0))) with (k := k)
    as (st & day & Hst & Hday & Hnth).
  - intros st day m -> Hday. rewrite indicatorStep_state.
    apply (rsiStep_flat c n m day Hday).
  - reflexivity.
  - rewrite flatSeries_length. lia.
  - subst st. eexists. split; [exact Hnth |].
    rewrite indicatorStep_point. cbn [rsi].
    apply (rsiStep_flat c n k day Hday). lia.
Qed.

Lemma rsi_flat_series_zero_witness :
  exists p,
    nth_error (dataWithIndicators (flatSeries 100 30)) 14 = Some p /\
    rsi p = Finite 0.
Proof.
  apply (rsi_flat_series_zero 100 30 14). lia.
Defined.

Lemma slice_map {A B : Type} (f : A -> B) (l : list A) (a b : Z) :
  slice (map f l) a b = map f (slice l a b).
Proof. unfold slice. now rewrite length_map, skipn_map, firstn_map. Qed.

Lemma firstn_seq_all (n start len : nat) :
  (n <= len)%nat -> firstn n (seq start len) = seq start n.
Proof.
  revert start len. induction n as [| n IH]; intros start len Hn.
  - reflexivity.
  - destruct len as [| len]; [lia |]. cbn [seq firstn].
    f_equal. apply IH. lia.
Qed.

Lemma slice_seq (n : nat) (a b : Z) :
  (0 <= a <= b)%Z -> (b <= Z.of_nat n)%Z ->
  slice (seq 0 n) a b = seq (Z.to_nat a) (Z.to_nat (b - a)).
Proof.
  intros Hab Hb. unfold slice. rewrite length_seq.
  replace (a <? 0)%Z with false by lia.
  replace (b <? 0)%Z with false by lia.
  rewrite skipn_seq. rewrite firstn_seq_all by lia.
  f_equal; lia.
Qed.

Lemma windowGainLoss_cons (a b : PricePoint) rest (g l : num) :
  windowGainLoss (a :: b :: rest) g l =
  if gt (sub (price b) (price a)) 0
  then windowGainLoss (b :: rest) (add g (sub (price b) (price a))) l
  else windowGainLoss (b :: rest) g (sub l (sub (price b) (price a))).
Proof. reflexivity. Qed.

(** Over a window that rises by [step] from each price to the next, the
    gains add up and there is no loss. *)
Lemma windowGainLoss_rising (start step : R) (m : nat) :
  0 < step ->
  forall (a : nat) (g l : R),
    windowGainLoss
      (map (fun k => {| date := Z.of_nat k;
                        price := Finite (start + INR k * step);
                        volume := Finite 0 |}) (seq a (S m)))
      (Finite g) (Finite l)
    = (Finite (g + INR m * step), Finite l).
Proof.
  intros Hstep.
  set (f := fun k => {| date := Z.of_nat k;
                        price := Finite (start + INR k * step);
                        volume := Finite 0 |}).
  induction m as [| m IH]; intros a g l.
  - cbn [seq map windowGainLoss]. f_equal. f_equal. simpl. ring.
  - rewrite <- (cons_seq (S m) a), map_cons.
    rewrite <- (cons_seq m (S a)), map_cons.
    rewrite windowGainLoss_cons.
    assert (Hd : sub (price (f (S a))) (price (f a)) = Finite step).
    { unfold f. cbn [price sub neg add]. f_equal. rewrite S_INR. ring. }
    rewrite Hd.
    replace (gt (Finite step) 0) with true
      by (symmetry; apply gt_Finite; exact Hstep).
    replace (add (Finite g) (Finite step)) with (Finite (g + step)) by reflexivity.
    rewrite <- map_cons, (cons_seq m (S a)).
    rewrite IH. f_equal. f_equal. rewrite (S_INR m). ring.
Qed.

(** X13.  On a series that rises by the same positive [step] every day, the
    RSI after the bootstrap is [100 * 13 step / (13 step + 14)], which
    depends on the size of the step and is below 50 when the step is at
    most 1: a steady rise without a single losing day does not read as 100. *)
Theorem rsi_rising_series :
  forall (start step : R) (n k : nat),
    0 < step -> (14 < k < n)%nat ->
    exists p,
      nth_error (dataWithIndicators (risingSeries start step n)) k = Some p /\
      rsi p = Finite (100 * (13 * step) / (13 * step + 14)) /\
      (step <= 1 -> 100 * (13 * step) / (13 * step + 14) < 50).
Proof.
  intros start step n k Hstep Hk.
  assert (Hlen : length (risingSeries start step n) = n)
    by (unfold risingSeries; now rewrite length_map, length_seq).
  destruct (point_at (risingSeries start step n) k ltac:(lia))
    as (st & day & Hday & Hnth).
  eexists. split; [exact Hnth |]. split.
  - rewrite indicatorStep_point. cbn [rsi].
    unfold rsiStep. destruct st as [gains losses].
    replace (0 <? Z.of_nat k)%Z with true by lia.
    replace (Z.of_nat k <=? rsiPeriod)%Z with false by (unfold rsiPeriod; lia).
    unfold risingSeries at 1. rewrite slice_map.
    rewrite slice_seq by (unfold rsiPeriod; lia).
    replace (Z.to_nat (Z.of_nat k + 1 - (Z.of_nat k - rsiPeriod + 1)))
      with (S 13) by (unfold rsiPeriod; lia).
    rewrite (windowGainLoss_rising start step 13 Hstep).
    rewrite rsiFormula_closed by (simpl; lra). cbn [snd].
    destruct (Req_dec_T 0 0); [| lra].
    f_equal. simpl. field. lra.
  - intros Hle.
    assert (H : 100 * (13 * step) / (13 * step + 14) * (13 * step + 14)
                = 100 * (13 * step)) by (field; lra).
    nra.
Qed.

Lemma rsi_rising_series_witness :
  exists p,
    nth_error (dataWithIndicators (risingSeries 100 1 30)) 20 = Some p /\
    rsi p = Finite (100 * (13 * 1) / (13 * 1 + 14)) /\
    (1 <= 1 -> 100 * (13 * 1) / (13 * 1 + 14) < 50).
Proof.
  apply (rsi_rising_series 100 1 30 20); [lra | lia].
Defined.

(* ================================================================= *)
(** ** Further properties: the scores *)

Lemma trendScore_values (current : option IndicatorPoint) :
  trendScore current = Finite 1 \/ trendScore current = Finite (-1).
Proof. unfold trendScore. destruct (gt _ _); auto. Qed.

Lemma revScore_values (current : option IndicatorPoint) :
  revScore current = Finite 1 \/ revScore current = Finite 0 \/
  revScore current = Finite (-1).
Proof. unfold revScore. destruct (lt _ _); auto. destruct (gt _ _); auto. Qed.

Lemma sentimentScore_values (recommendations : option Recommendations)
      (current : option IndicatorPoint) :
  sentimentScore recommendations current = Finite 1 \/
  sentimentScore recommendations current = Finite 0 \/
  sentimentScore recommendations current = Finite (-1).
Proof.
  unfold sentimentScore. destruct recommendations as [r |].
  - cbv zeta.
    match goal with |- context [if gt ?t (Finite 0) then _ else _] =>
      destruct (gt t (Finite 0)) end.
    + destruct (gt _ _); auto. destruct (lt _ _); auto.
    + destruct (gt _ _); auto.
  - destruct (gt _ _); auto.
Qed.

Lemma Finite_neq (a b : R) : a <> b -> Finite a <> Finite b.
Proof. intros H E. injection E as E. contradiction. Qed.

(** X14.  The mean-reversion score is +1, 0 or -1; it is 0 when there is no
    current point; and the risk level shown is "High (Reversal)" exactly
    when the score is not 0. *)
Theorem revScore_risk_level :
  forall current : option IndicatorPoint,
    (revScore current = Finite 1 \/ revScore current = Finite 0 \/
     revScore current = Finite (-1)) /\
    (riskLevel current = "High (Reversal)"%string <->
     revScore current <> Finite 0) /\
    revScore None = Finite 0 /\
    riskLevel None = "Moderate (Trend)"%string.
Proof.
  intros current. split; [apply revScore_values |].
  split; [| split; reflexivity].
  unfold riskLevel, revScore.
  destruct (lt (toNumber (field zScore_field current)) (-2)); cbn [orb].
  - split; intros _; [apply Finite_neq; lra | reflexivity].
  - destruct (gt (toNumber (field zScore_field current)) 2).
    + split; intros _; [apply Finite_neq; lra | reflexivity].
    + split; intros H; [discriminate | exfalso; apply H; reflexivity].
Qed.

(** The clamp to [-1, 1] does not move a value across 0.3 or -0.3. *)
Lemma clamp_thresholds (x : R) :
  (0.3 < Rmax (-1) (Rmin 1 x) <-> 0.3 < x) /\
  (Rmax (-1) (Rmin 1 x) < -0.3 <-> x < -0.3).
Proof.
  unfold Rmax, Rmin.
  destruct (Rle_dec 1 x); destruct (Rle_dec (-1) _); split; split; lra.
Qed.

(** X15.  With the five analyst counts present and at least one analyst, the
    sentiment score is +1 when the weighted balance
    [2 strongBuy + buy - sell - 2 strongSell] is above 0.3 times the number
    of analysts, -1 when it is below -0.3 times that number and 0 otherwise
    (the clamp to [-1, 1] plays no part).  With no analyst at all, or with
    an object without counts, the score is the one computed without
    recommendations: the price against [sma50]. *)
Theorem sentimentScore_consensus :
  forall (sb b h s ss : nat) (current : option IndicatorPoint),
    sentimentScore (Some (consensus sb b h s ss)) current =
    (if (sb + b + h + s + ss =? 0)%nat then sentimentScore None current
     else if Rlt_dec (0.3 * INR (sb + b + h + s + ss))
                     (2 * INR sb + INR b - INR s - 2 * INR ss)
          then Finite 1
          else if Rlt_dec (2 * INR sb + INR b - INR s - 2 * INR ss)
                          (- 0.3 * INR (sb + b + h + s + ss))
               then Finite (-1) else Finite 0) /\
    sentimentScore
      (Some (mkRecommendations VUndefined VUndefined VUndefined
                               VUndefined VUndefined)) current
    = sentimentScore None current.
Proof.
  intros sb b h s ss current. split.
  - unfold sentimentScore, consensus.
    cbn [strongBuy buy hold sell strongSell orDefault toNumber add mul].
    set (tot := INR sb + INR b + INR h + INR s + INR ss).
    assert (Htot : tot = INR (sb + b + h + s + ss))
      by (unfold tot; rewrite !plus_INR; reflexivity).
    set (bal := INR sb * 2 + INR b * 1 + INR h * 0 + INR s * -1 + INR ss * -2).
    assert (Hbal : bal = 2 * INR sb + INR b - INR s - 2 * INR ss)
      by (unfold bal; ring).
    rewrite <- Htot, <- Hbal.
    assert (Hpos : 0 <= tot).
    { rewrite Htot. apply pos_INR. }
    destruct (sb + b + h + s + ss =? 0)%nat eqn:E.
    + apply Nat.eqb_eq in E. rewrite E in Htot. simpl in Htot.
      replace (gt (Finite tot) (Finite 0)) with false
        by (symmetry; apply gt_Finite_false; lra).
      reflexivity.
    + apply Nat.eqb_neq in E.
      assert (Hlt : 0 < tot).
      { rewrite Htot. apply lt_0_INR. lia. }
      replace (gt (Finite tot) (Finite 0)) with true
        by (symmetry; apply gt_Finite; lra).
      rewrite div_Finite by lra. cbn [Math_min Math_max].
      destruct (clamp_thresholds (bal / tot)) as [Hhi Hlo].
      assert (Eq : bal / tot * tot = bal) by (field; lra).
      unfold gt. cbn [lt].
      destruct (Rlt_dec 0.3 (Rmax (-1) (Rmin 1 (bal / tot)))) as [H1 | H1].
      * destruct (Rlt_dec (0.3 * tot) bal) as [H2 | H2]; [reflexivity |].
        exfalso. apply H2. apply Hhi in H1. nra.
      * destruct (Rlt_dec (0.3 * tot) bal) as [H2 | H2].
        { exfalso. apply H1. apply Hhi. nra. }
        destruct (Rlt_dec (Rmax (-1) (Rmin 1 (bal / tot))) (-0.3)) as [H3 | H3].
        { destruct (Rlt_dec bal (- 0.3 * tot)) as [H4 | H4]; [reflexivity |].
          exfalso. apply H4. apply Hlo in H3. nra. }
        { destruct (Rlt_dec bal (- 0.3 * tot)) as [H4 | H4]; [| reflexivity].
          exfalso. apply H3. apply Hlo. nra. }
  - unfold sentimentScore.
    cbn [strongBuy buy hold sell strongSell orDefault toNumber add].
    replace (gt (Finite (0 + 0 + 0 + 0 + 0)) (Finite 0)) with false
      by (symmetry; apply gt_Finite_false; lra).
    reflexivity.
Qed.

(** X16.  For weights in the range of the three sliders, from 0 to 1, the
    total score is a real number between -3 and 3: the weights are not
    normalised, so the conviction shown can reach 300 per cent.  Its absolute
    value does not exceed the sum of the three weights by more than one part
    in a billion.  (In the exact arithmetic of the model it does not exceed
    the sum; the margin leaves room for the rounding of the two additions of
    the source.) *)
Theorem totalScore_bound :
  forall (current : option IndicatorPoint)
         (recommendations : option Recommendations) (wt wm ws : R),
    0 <= wt <= 1 -> 0 <= wm <= 1 -> 0 <= ws <= 1 ->
    exists t,
      totalScore current recommendations
                 {| w_trend := wt; w_meanRev := wm; w_sentiment := ws |}
      = Finite t /\
      Rabs t <= 3 /\
      Rabs t <= (wt + wm + ws) * (1 + 0.000000001).
Proof.
  intros current recs wt wm ws Ht Hm Hs. unfold totalScore.
  cbn [w_trend w_meanRev w_sentiment].
  destruct (trendScore_values current) as [-> | ->];
    destruct (revScore_values current) as [-> | [-> | ->]];
    destruct (sentimentScore_values recs current) as [-> | [-> | ->]];
    cbn [mul add]; eexists; (split; [reflexivity |]);
    split; apply Rabs_le; nra.
Qed.

Lemma totalScore_bound_witness :
  exists t,
    totalScore None None
               {| w_trend := 0.4; w_meanRev := 0.4; w_sentiment := 0.2 |}
    = Finite t /\
    Rabs t <= 3 /\
    Rabs t <= (0.4 + 0.4 + 0.2) * (1 + 0.000000001).
Proof.
  apply (totalScore_bound None None 0.4 0.4 0.2); lra.
Defined.

(** X17.  With non-negative weights the verdict is BUY only if at least one
    of the three scores is +1, and SELL only if at least one is -1. *)
Theorem verdict_needs_a_signal :
  forall (current : option IndicatorPoint)
         (recommendations : option Recommendations) (wt wm ws : R),
    0 <= wt -> 0 <= wm -> 0 <= ws ->
    let total :=
      totalScore current recommendations
                 {| w_trend := wt; w_meanRev := wm; w_sentiment := ws |} in
    (verdict total = BUY ->
     trendScore current = Finite 1 \/ revScore current = Finite 1 \/
     sentimentScore recommendations current = Finite 1) /\
    (verdict total = SELL ->
     trendScore current = Finite (-1) \/ revScore current = Finite (-1) \/
     sentimentScore recommendations current = Finite (-1)).
Proof.
  intros current recs wt wm ws Ht Hm Hs. cbv zeta. unfold totalScore, verdict, gt.
  cbn [w_trend w_meanRev w_sentiment].
  destruct (trendScore_values current) as [-> | ->];
    destruct (revScore_values current) as [-> | [-> | ->]];
    destruct (sentimentScore_values recs current) as [-> | [-> | ->]];
    cbn [mul add lt];
    (split; intros H; auto;
     repeat match goal with
            | H : context [Rlt_dec ?a ?b] |- _ => destruct (Rlt_dec a b)
            end;
     try discriminate; exfalso; lra).
Qed.

Lemma verdict_needs_a_signal_witness :
  let total :=
    totalScore None None
               {| w_trend := 0.4; w_meanRev := 0.4; w_sentiment := 0.2 |} in
  (verdict total = BUY ->
   trendScore None = Finite 1 \/ revScore None = Finite 1 \/
   sentimentScore None None = Finite 1) /\
  (verdict total = SELL ->
   trendScore None = Finite (-1) \/ revScore None = Finite (-1) \/
   sentimentScore None None = Finite (-1)).
Proof.
  apply (verdict_needs_a_signal None None 0.4 0.4 0.2); lra.
Defined.

(** X18.  The colours of the verdict card and the displayed position size
    follow the verdict: green for BUY, red for SELL, yellow for NEUTRAL,
    and the displayed size is 0 for NEUTRAL and the computed size
    otherwise. *)
Theorem verdict_display_consistent :
  forall s size : num,
    (verdict s = BUY <-> getScoreColor s = "text-green-400"%string) /\
    (verdict s = SELL <-> getScoreColor s = "text-red-400"%string) /\
    (verdict s = NEUTRAL <-> getScoreColor s = "text-yellow-400"%string) /\
    (verdict s = BUY <->
     getScoreBg s = "bg-green-500/20 border-green-500"%string) /\
    (verdict s = SELL <->
     getScoreBg s = "bg-red-500/20 border-red-500"%string) /\
    shownPositionSize s size =
      match verdict s with NEUTRAL => Finite 0 | _ => size end.
Proof.
  intros s size. unfold verdict, getScoreColor, getScoreBg, shownPositionSize.
  destruct (gt s 0.2); destruct (lt s (-0.2)); cbn [orb];
    repeat split; intros; try discriminate; reflexivity.
Qed.

(* ================================================================= *)
(** ** Further properties: position sizing and the simulated pipeline *)

(** The size before the cap is a non-negative multiple of the absolute
    score; the factor depends on the two prices only. *)
Lemma rawSize_linear (cur prev : option IndicatorPoint) :
  exists q, 0 <= q /\
            forall t : R, rawSize cur prev (Finite t) = Finite (q * Rabs t).
Proof.
  unfold rawSize, targetVol.
  destruct (annualizedVol_cases cur prev) as [[a [Ha Hpos]] | [Ha | Ha]]; rewrite Ha.
  - destruct (Req_dec_T a 0) as [Hz | Hnz].
    + subst a. rewrite or_else_zero. rewrite div_Finite by lra.
      exists (0.15 / 0.01). split; [lra |]. reflexivity.
    + rewrite or_else_nonzero by assumption. rewrite div_Finite by assumption.
      exists (0.15 / a). split; [| reflexivity].
      apply Rlt_le, Rdiv_lt_0_compat; lra.
  - exists 0. split; [lra |]. intros t. reflexivity.
  - replace (or_else NaN 0.01) with (Finite 0.01) by reflexivity.
    rewrite div_Finite by lra.
    exists (0.15 / 0.01). split; [lra |]. reflexivity.
Qed.

(** X19.  For fixed prices the position size does not decrease when the
    absolute total score grows, and it is 0 for a total score of 0. *)
Theorem positionSize_monotone :
  forall (current prev : option IndicatorPoint) (t1 t2 : R),
    Rabs t1 <= Rabs t2 ->
    exists p1 p2,
      positionSize current prev t1 = Finite p1 /\
      positionSize current prev t2 = Finite p2 /\
      p1 <= p2 /\
      positionSize current prev 0 = Finite 0.
Proof.
  intros cur prev t1 t2 Ht. unfold positionSize.
  destruct (rawSize_linear cur prev) as (q & Hq & Hraw).
  rewrite !Hraw. cbn [Math_min mul].
  eexists; eexists. split; [reflexivity |]. split; [reflexivity |]. split.
  - assert (H : q * Rabs t1 <= q * Rabs t2) by (apply Rmult_le_compat_l; assumption).
    unfold Rmin. destruct (Rle_dec _ _); destruct (Rle_dec _ _); lra.
  - f_equal. rewrite Rabs_R0, Rmult_0_r.
    unfold Rmin. destruct (Rle_dec _ _); lra.
Qed.

Lemma positionSize_monotone_witness :
  exists p1 p2,
    positionSize None None 0.3 = Finite p1 /\
    positionSize None None 0.5 = Finite p2 /\
    p1 <= p2 /\
    positionSize None None 0 = Finite 0.
Proof.
  apply (positionSize_monotone None None 0.3 0.5).
  rewrite !Rabs_pos_eq by lra. lra.
Defined.

(** X20.  When the current price equals the previous one, or when there is
    no previous point, the volatility guard takes the divisor 0.01 and the
    position size is the full 25 for every total score outside
    [-0.2, 0.2], that is for every BUY or SELL verdict. *)
Theorem positionSize_full_without_volatility :
  forall (current prev : IndicatorPoint) (x t : R),
    ip_price current = Finite x -> ip_price prev = Finite x -> x <> 0 ->
    0.2 < Rabs t ->
    positionSize (Some current) (Some prev) t = Finite 25 /\
    positionSize (Some current) None t = Finite 25.
Proof.
  intros cur prev x t Hc Hp Hx Ht.
  assert (Hfull : forall a : num,
             or_else a 0.01 = Finite 0.01 ->
             mul (Math_min (mul (div targetVol (or_else a 0.01)) (Math_abs t)) 2.5) 10
             = Finite 25).
  { intros a ->. unfold targetVol. rewrite div_Finite by lra.
    cbn [Math_abs mul Math_min]. f_equal.
    rewrite Rmin_right by lra. lra. }
  unfold positionSize, rawSize. split; apply Hfull.
  - rewrite (annualizedVol_finite cur prev x x Hc Hp Hx).
    replace ((x - x) / x * sqrt 252) with 0 by (field; exact Hx).
    rewrite Rabs_R0. apply or_else_zero.
  - unfold annualizedVol. rewrite volatility_no_prev. reflexivity.
Qed.

Lemma positionSize_full_without_volatility_witness :
  positionSize (Some (samplePoint 100 VNull)) (Some (samplePoint 100 VNull)) 0.4
  = Finite 25 /\
  positionSize (Some (samplePoint 100 VNull)) None 0.4 = Finite 25.
Proof.
  apply (positionSize_full_without_volatility
           (samplePoint 100 VNull) (samplePoint 100 VNull) 100 0.4);
    try reflexivity; try lra.
  rewrite Rabs_pos_eq by lra. lra.
Defined.

Lemma generateStockData_floor clock ticker :
  Forall (fun d => exists x, price d = Finite x /\ 5 <= x)
         (generateStockData clock ticker).
Proof.
  apply Forall_forall. intros p. rewrite generateStockData_loop.
  destruct (tickerSeed_finite ticker) as [s ->].
  destruct (trend_bound s) as (t & -> & _).
  destruct (startPrice_range s) as (x0 & -> & _).
  apply generateLoop_prices.
Qed.

(** A series of finite prices bounded below is bounded above as well. *)
Lemma within_of_lower (lo : R) (data : list PricePoint) :
  Forall (fun d => exists x, price d = Finite x /\ lo <= x) data ->
  exists hi, prices_within lo hi data.
Proof.
  induction data as [| d data IH]; intros H.
  - exists lo. constructor.
  - inversion H as [| ? ? (x & Hx & Hlo) H']; subst.
    destruct (IH H') as [hi Hhi].
    exists (Rmax x hi). constructor.
    + exists x. split; [exact Hx |]. split; [exact Hlo | apply Rmax_l].
    + eapply Forall_impl; [| exact Hhi].
      intros d' (y & Hy & Hyr). exists y. split; [exact Hy |].
      pose proof (Rmax_r x hi). lra.
Qed.

Lemma finite_of_within (lo hi : R) (data : list PricePoint) :
  prices_within lo hi data -> finite_prices data.
Proof.
  intros H. eapply Forall_impl; [| exact H].
  intros d (x & Hx & _). exists x. exact Hx.
Qed.

Lemma trendScore_numeric (p : IndicatorPoint) (x b : R) :
  ip_price p = Finite x -> sma200 p = VNum (Finite b) ->
  trendScore (Some p) = if Rlt_dec b x then Finite 1 else Finite (-1).
Proof.
  intros Hx Hb. unfold trendScore, field, price_field, gt.
  rewrite Hx, Hb. cbn [toNumber lt]. destruct (Rlt_dec b x); reflexivity.
Qed.

(** X21.  In simulated mode every one of the 200 displayed points has all
    its indicators: the point of index [j] carries the date that [setDate]
    and [toISOString] give for [200 - j] days before the call, the price
    and both moving averages are real numbers not below the floor 5, both
    Bollinger bands are present, and the trend score compares the price with
    a real 200-day average. *)
Theorem simulated_series_indicators :
  forall (clock : Clock) (ticker : string) (j : nat),
    (j < 200)%nat ->
    exists p x a b u l,
      nth_error (calculateIndicators (generateStockData clock ticker)) j = Some p /\
      ip_date p = isoDay (setDateBack clock (timeValue clock) (200 - Z.of_nat j)) /\
      ip_price p = Finite x /\ 5 <= x /\
      sma50 p = VNum (Finite a) /\ 5 <= a /\
      sma200 p = VNum (Finite b) /\ 5 <= b /\
      bbUpper p = VNum (Finite u) /\ bbLower p = VNum (Finite l) /\ l <= u /\
      trendScore (Some p) = (if Rlt_dec b x then Finite 1 else Finite (-1)).
Proof.
  intros clock ticker j Hj.
  set (data := generateStockData clock ticker).
  assert (Hlen : length data = 400%nat) by apply generateStockData_length.
  destruct (within_of_lower 5 data (generateStockData_floor clock ticker))
    as [hi Hw].
  pose proof (finite_of_within 5 hi data Hw) as Hfin.
  destruct (point_at data (200 + j) ltac:(lia)) as (st & day & Hday & Hnth).
  pose proof (indicatorStep_point data st day (Z.of_nat (200 + j))) as Hpt.
  set (pt := snd (indicatorStep data st day (Z.of_nat (200 + j)))) in *.
  assert (Hx : exists x, price day = Finite x /\ 5 <= x).
  { pose proof (generateStockData_floor clock ticker) as Hfl.
    rewrite Forall_forall in Hfl. apply Hfl.
    exact (nth_error_In _ _ Hday). }
  destruct Hx as (x & Hx & Hx5).
  destruct (smaAt_within 5 hi data period50 (200 + j) Hw)
    as (a & Ha & Ha5); [reflexivity | unfold period50; lia | lia |].
  destruct (smaAt_within 5 hi data period200 (200 + j) Hw)
    as (b & Hb & Hb5); [reflexivity | unfold period200; lia | lia |].
  destruct (bollingerAt_finite data Hfin day (Z.of_nat (200 + j)) x Hx)
    as (m & sd & Hsd & Hbands); [lia |].
  assert (Hprice : ip_price pt = Finite x) by (rewrite Hpt; exact Hx).
  assert (Hs200 : sma200 pt = VNum (Finite b)) by (rewrite Hpt; exact Hb).
  exists pt, x, a, b, (m + 2 * sd), (m + - (2 * sd)).
  split.
  { rewrite calculateIndicators_skipn, nth_error_skipn, Hlen.
    replace (400 - 200 + j)%nat with (200 + j)%nat by lia. exact Hnth. }
  split.
  { rewrite Hpt. cbn [ip_date].
    rewrite (generateStockData_date clock ticker (200 + j) day Hday).
    unfold dateAt, totalPoints. do 2 f_equal. lia. }
  split; [exact Hprice |]. split; [exact Hx5 |].
  split; [rewrite Hpt; exact Ha |]. split; [lra |].
  split; [exact Hs200 |]. split; [lra |].
  split; [rewrite Hpt; cbn [bbUpper]; rewrite Hbands; reflexivity |].
  split; [rewrite Hpt; cbn [bbLower]; rewrite Hbands; reflexivity |].
  split; [lra |].
  exact (trendScore_numeric pt x b Hprice Hs200).
Qed.

Lemma simulated_series_indicators_witness :
  exists p x a b u l,
    nth_error (calculateIndicators (generateStockData springForwardClock "NFLX")) 0
    = Some p /\
    ip_date p = isoDay (setDateBack springForwardClock
                          (timeValue springForwardClock) (200 - Z.of_nat 0)) /\
    ip_price p = Finite x /\ 5 <= x /\
    sma50 p = VNum (Finite a) /\ 5 <= a /\
    sma200 p = VNum (Finite b) /\ 5 <= b /\
    bbUpper p = VNum (Finite u) /\ bbLower p = VNum (Finite l) /\ l <= u /\
    trendScore (Some p) = (if Rlt_dec b x then Finite 1 else Finite (-1)).
Proof.
  apply (simulated_series_indicators springForwardClock "NFLX" 0). lia.
Defined.

(** The current point of a series of at most 200 points is the callback's
    point for the last input point. *)
Lemma current_point (data : list PricePoint) (day : PricePoint) :
  (length data <= 200)%nat ->
  nth_error data (length data - 1) = Some day ->
  exists st,
    pointFromEnd (calculateIndicators data) 1 =
    Some (snd (indicatorStep data st day (Z.of_nat (length data - 1)))).
Proof.
  intros Hlen Hday.
  assert (Hpos : (length data - 1 < length data)%nat)
    by (apply nth_error_Some; congruence).
  destruct (point_at data (length data - 1) Hpos) as (st & day' & Hday' & Hnth).
  assert (day' = day) by congruence. subst day'.
  exists st. unfold pointFromEnd.
  rewrite calculateIndicators_length.
  replace (Nat.min (length data) 200) with (length data) by lia.
  replace (Nat.leb 1 (length data)) with true by (symmetry; apply Nat.leb_le; lia).
  rewrite calculateIndicators_short by assumption.
  exact Hnth.
Qed.

(** X22.  A series of at most 20 points has no moving average and no band
    at its last point; when its last price is a positive real number and
    there are no analyst recommendations, the comparisons with the missing
    averages count as true: trend +1, mean reversion 0, sentiment +1, and
    with the initial weights the verdict is BUY. *)
Theorem short_history_verdict :
  forall (data : list PricePoint) (day : PricePoint) (x : R),
    (length data <= 20)%nat ->
    nth_error data (length data - 1) = Some day ->
    price day = Finite x -> 0 < x ->
    let current := pointFromEnd (calculateIndicators data) 1 in
    trendScore current = Finite 1 /\
    revScore current = Finite 0 /\
    sentimentScore None current = Finite 1 /\
    verdict (totalScore current None defaultWeights) = BUY.
Proof.
  intros data day x Hlen Hday Hx Hpos. cbv zeta.
  destruct (current_point data day ltac:(lia) Hday) as [st ->].
  pose proof (indicatorStep_point data st day (Z.of_nat (length data - 1))) as Hpt.
  set (pt := snd (indicatorStep data st day (Z.of_nat (length data - 1)))) in *.
  assert (Hprice : ip_price pt = Finite x) by (rewrite Hpt; exact Hx).
  assert (Hs200 : sma200 pt = VNull)
    by (rewrite Hpt; apply smaAt_early; unfold period200; lia).
  assert (Hs50 : sma50 pt = VNull)
    by (rewrite Hpt; apply smaAt_early; unfold period50; lia).
  assert (Hz : zScore pt = Finite 0)
    by (rewrite Hpt; cbn [zScore]; rewrite bollingerAt_early by lia; reflexivity).
  assert (Ht : trendScore (Some pt) = Finite 1)
    by (apply (trendScore_null pt x); assumption).
  assert (Hr : revScore (Some pt) = Finite 0).
  { unfold revScore, field, zScore_field, gt. rewrite Hz. cbn [toNumber lt].
    destruct (Rlt_dec 0 (-2)); [lra |]. destruct (Rlt_dec 2 0); [lra |].
    reflexivity. }
  assert (Hs : sentimentScore None (Some pt) = Finite 1).
  { unfold sentimentScore, field, price_field. rewrite Hprice, Hs50.
    cbn [toNumber].
    replace (gt (Finite x) (Finite 0)) with true
      by (symmetry; apply gt_Finite; assumption).
    reflexivity. }
  split; [exact Ht |]. split; [exact Hr |]. split; [exact Hs |].
  unfold totalScore, defaultWeights. rewrite Ht, Hr, Hs.
  cbn [w_trend w_meanRev w_sentiment mul add].
  unfold verdict, gt. cbn [lt].
  destruct (Rlt_dec 0.2 (1 * 0.4 + 0 * 0.4 + 1 * 0.2)); [reflexivity | lra].
Qed.

Lemma short_history_verdict_witness :
  let current := pointFromEnd (calculateIndicators (flatSeries 110 5)) 1 in
  trendScore current = Finite 1 /\
  revScore current = Finite 0 /\
  sentimentScore None current = Finite 1 /\
  verdict (totalScore current None defaultWeights) = BUY.
Proof.
  apply (short_history_verdict
           (flatSeries 110 5)
           {| date := 4; price := Finite 110; volume := Finite 0 |} 110).
  - rewrite flatSeries_length. lia.
  - reflexivity.
  - reflexivity.
  - lra.
Defined.

(* ================================================================= *)
(** ** Further properties: the range of the z-score *)

Lemma firstn_snoc {A : Type} (l : list A) (n : nat) (x : A) :
  nth_error l n = Some x -> firstn (S n) l = firstn n l ++ [x].
Proof.
  revert l. induction n as [| n IH]; intros l Hx.
  - destruct l as [| y l]; [discriminate |]. cbn in Hx. injection Hx as ->.
    reflexivity.
  - destruct l as [| y l]; [discriminate |]. cbn [nth_error] in Hx.
    cbn [firstn app]. f_equal. apply IH. exact Hx.
Qed.

(** A window that ends at index [k] is the window before [k] followed by
    the element at [k]. *)
Lemma slice_snoc {A : Type} (l : list A) (a : Z) (k : nat) (x : A) :
  nth_error l k = Some x -> (0 <= a <= Z.of_nat k)%Z ->
  slice l a (Z.of_nat k + 1) = slice l a (Z.of_nat k) ++ [x].
Proof.
  intros Hx Ha.
  assert (Hk : (k < length l)%nat) by (apply nth_error_Some; congruence).
  unfold slice.
  replace (a <? 0)%Z with false by lia.
  replace (Z.of_nat k + 1 <? 0)%Z with false by lia.
  replace (Z.of_nat k <? 0)%Z with false by lia.
  replace (Z.to_nat (Z.min (Z.of_nat k + 1) (Z.of_nat (length l))
                     - Z.min a (Z.of_nat (length l))))
    with (S (k - Z.to_nat a)) by lia.
  replace (Z.to_nat (Z.min (Z.of_nat k) (Z.of_nat (length l))
                     - Z.min a (Z.of_nat (length l))))
    with (k - Z.to_nat a)%nat by lia.
  replace (Z.to_nat (Z.min a (Z.of_nat (length l)))) with (Z.to_nat a) by lia.
  apply firstn_snoc. rewrite nth_error_skipn.
  replace (Z.to_nat a + (k - Z.to_nat a))%nat with k by lia. exact Hx.
Qed.

(** The square of a sum of [n] deviations is at most [n] times the sum of
    their squares, for the two folds of the Bollinger block. *)
Lemma cauchy_fold (m : R) pre :
  finite_prices pre ->
  forall s0 q0 : R,
    exists S Q,
      fold_left (fun a b => add a (price b)) pre (Finite s0) = Finite S /\
      fold_left (fun a b => add a (Math_pow (sub (price b) (Finite m)) 2))
                pre (Finite q0) = Finite Q /\
      q0 <= Q /\
      (S - s0 - INR (length pre) * m) * (S - s0 - INR (length pre) * m)
      <= INR (length pre) * (Q - q0).
Proof.
  induction pre as [| d pre IH]; intros Hfin s0 q0.
  - exists s0, q0. cbn [fold_left length INR].
    split; [reflexivity |]. split; [reflexivity |]. split; lra.
  - inversion Hfin as [| ? ? [y Hy] Hfin']; subst.
    cbn [fold_left]. rewrite Hy. cbn [sub neg add Math_pow pow].
    set (dd := y + - m).
    assert (Hdd : 0 <= dd * (dd * 1)).
    { pose proof (Rle_0_sqr dd) as H. unfold Rsqr in H. lra. }
    destruct (IH Hfin' (s0 + y) (q0 + dd * (dd * 1))) as (S & Q & HS & HQ & Hq & Hcs).
    exists S, Q. split; [exact HS |]. split; [exact HQ |]. split; [lra |].
    cbn [length]. rewrite S_INR.
    set (N := INR (length pre)) in *.
    assert (HN : 0 <= N) by apply pos_INR.
    set (A := S - (s0 + y) - N * m) in *.
    set (B := Q - (q0 + dd * (dd * 1))) in *.
    assert (HB : 0 <= B) by (unfold B; lra).
    replace (S - s0 - (N + 1) * m) with (A + dd) by (unfold A, dd; ring).
    replace (Q - q0) with (B + dd * dd) by (unfold B; ring).
    destruct (Req_dec_T N 0) as [E | E].
    + rewrite E in *.
      assert (HA : A * A <= 0) by lra.
      assert (HA0 : A = 0).
      { pose proof (Rle_0_sqr A) as H. unfold Rsqr in H.
        assert (H0 : A * A = 0) by lra.
        apply Rmult_integral in H0. destruct H0; assumption. }
      rewrite HA0. nra.
    + assert (HNpos : 0 < N) by lra.
      assert (Hsq : 0 <= (A - N * dd) * (A - N * dd)).
      { pose proof (Rle_0_sqr (A - N * dd)) as H. unfold Rsqr in H. exact H. }
      assert (Hmain : N * ((A + dd) * (A + dd)) <= N * ((N + 1) * (B + dd * dd))).
      { assert (H1 : 2 * N * A * dd <= A * A + N * N * (dd * dd)) by nra.
        assert (H2 : N * (A * A) <= N * (N * B))
          by (apply Rmult_le_compat_l; lra).
        nra. }
      apply (Rmult_le_reg_l N); assumption.
Qed.

(** The z-score of the Bollinger block, from index 20 on. *)
Lemma bollingerAt_zbound data day (k : nat) (x : R) :
  finite_prices data -> nth_error data k = Some day -> price day = Finite x ->
  (20 <= k)%nat ->
  exists z, snd (bollingerAt data day (Z.of_nat k)) = Finite z /\ z * z <= 19.
Proof.
  intros Hfin Hday Hx Hk.
  assert (Hklen : (k < length data)%nat) by (apply nth_error_Some; congruence).
  unfold bollingerAt.
  replace (20 <=? Z.of_nat k)%Z with true by lia.
  rewrite (slice_snoc data (Z.of_nat k - 19) k day Hday) by lia.
  set (pre := slice data (Z.of_nat k - 19) (Z.of_nat k)).
  assert (Hpre : finite_prices pre) by (apply Forall_slice; exact Hfin).
  assert (Hlen : INR (length pre) = 19).
  { unfold pre. rewrite slice_length by lia.
    replace (Z.to_nat (Z.of_nat k - (Z.of_nat k - 19))) with 19%nat by lia.
    simpl. lra. }
  destruct (fold_prices_finite pre Hpre 0) as [S HS].
  set (m := (S + x) / 20).
  destruct (cauchy_fold m pre Hpre 0 0) as (S' & Q & HS' & HQ & HQ0 & Hcs).
  assert (S' = S) by congruence. subst S'.
  rewrite Hlen in Hcs.
  rewrite !fold_left_app. rewrite HS. cbn [fold_left]. rewrite Hx. cbn [add].
  rewrite div_Finite by lra. fold m.
  rewrite HQ. cbn [sub neg add Math_pow pow].
  set (dd := x + - m) in *.
  set (v := Q + dd * (dd * 1)).
  assert (Hddsq : 0 <= dd * dd).
  { pose proof (Rle_0_sqr dd) as H. unfold Rsqr in H. exact H. }
  assert (Hv : 0 <= v) by (unfold v; lra).
  assert (Hkey : 20 * (dd * dd) <= 19 * v).
  { assert (E : S - 0 - 19 * m = - dd) by (unfold dd, m; field).
    rewrite E in Hcs. unfold v. lra. }
  rewrite div_Finite by lra.
  assert (Hvar : 0 <= v / 20) by lra.
  rewrite sqrt_Finite by assumption.
  set (sd := sqrt (v / 20)).
  assert (Hsd : 0 <= sd) by apply sqrt_pos.
  assert (Hsd2 : sd * sd = v / 20) by (apply sqrt_sqrt; exact Hvar).
  cbn [snd].
  destruct (Req_dec_T sd 0) as [E | E].
  - rewrite E, or_else_zero. rewrite div_Finite by lra.
    eexists. split; [reflexivity |].
    assert (Hv0 : v = 0) by (rewrite E in Hsd2; lra).
    assert (Hdd0 : dd * dd = 0) by lra.
    apply Rmult_integral in Hdd0.
    assert (Hd : dd = 0) by (destruct Hdd0; assumption).
    rewrite Hd. lra.
  - rewrite or_else_nonzero by assumption. rewrite div_Finite by assumption.
    eexists. split; [reflexivity |].
    assert (Hz : dd / sd * sd = dd) by (field; assumption).
    set (z := dd / sd) in *.
    assert (Hpos : 0 < sd * sd) by nra.
    assert (Hzz : (z * z) * (sd * sd) <= 19 * (sd * sd)).
    { replace (z * z * (sd * sd)) with ((z * sd) * (z * sd)) by ring.
      rewrite Hz. lra. }
    apply (Rmult_le_reg_r (sd * sd)); assumption.
Qed.

(** X23.  On finite prices every z-score is a real number of absolute
    value below 4.48: the price is one of the 20 prices of its own window,
    so its squared distance to the mean is at most 20 times the variance. *)
Theorem zScore_bounded :
  forall (data : list PricePoint) (k : nat),
    finite_prices data -> (k < length data)%nat ->
    exists p z,
      nth_error (dataWithIndicators data) k = Some p /\
      zScore p = Finite z /\ Rabs z < 4.48.
Proof.
  intros data k Hfin Hk.
  destruct (point_at data k Hk) as (st & day & Hday & Hnth).
  assert (Hz : exists z, snd (bollingerAt data day (Z.of_nat k)) = Finite z /\
                         z * z <= 19).
  { destruct (le_lt_dec 20 k) as [Hge | Hlt].
    - destruct (finite_price_at data Hfin k day Hday) as [x Hx].
      exact (bollingerAt_zbound data day k x Hfin Hday Hx Hge).
    - rewrite bollingerAt_early by lia. exists 0. split; [reflexivity | lra]. }
  destruct Hz as (z & Hz & Hzz).
  eexists. exists z. split; [exact Hnth |].
  rewrite indicatorStep_point. cbn [zScore].
  split; [exact Hz |].
  unfold Rabs. destruct (Rcase_abs z); nra.
Qed.

Lemma zScore_bounded_witness :
  exists p z,
    nth_error (dataWithIndicators (flatSeries 100 30)) 25 = Some p /\
    zScore p = Finite z /\ Rabs z < 4.48.
Proof.
  apply (zScore_bounded (flatSeries 100 30) 25).
  - apply flatSeries_finite.
  - rewrite flatSeries_length. lia.
Defined.
